(** * Query translator (SQL <-> MongoDB shell): a shallow embedding

    This development models the two translation modules of the repository,
    [query_translator/sql_to_mongo.py] and [query_translator/mongo_to_sql.py],
    over Python strings (Rocq [string]), Python values ([pyval]) and an error
    monad whose errors are the Python exception classes the code raises. *)

From Stdlib Require Import String Ascii ZArith List Bool Lia.
Import ListNotations.
Set Warnings "-register-all".
Open Scope list_scope.
Open Scope string_scope.

(** ** Python [str] primitives *)

Module PyStr.

(** [str.isspace] on ASCII: space, \t \n \v \f \r and the separators 0x1c..0x1f. *)
Definition is_space (c : ascii) : bool :=
  let n := nat_of_ascii c in
  (n =? 32)%nat || ((9 <=? n)%nat && (n <=? 13)%nat) || ((28 <=? n)%nat && (n <=? 31)%nat).

Definition is_digit (c : ascii) : bool :=
  let n := nat_of_ascii c in (48 <=? n)%nat && (n <=? 57)%nat.

Definition is_lower (c : ascii) : bool :=
  let n := nat_of_ascii c in (97 <=? n)%nat && (n <=? 122)%nat.

Definition is_upper (c : ascii) : bool :=
  let n := nat_of_ascii c in (65 <=? n)%nat && (n <=? 90)%nat.

(** Regex [\w] on ASCII: letters, digits and underscore. *)
Definition is_word (c : ascii) : bool :=
  is_digit c || is_lower c || is_upper c || Ascii.eqb c "_"%char.

Definition to_upper (c : ascii) : ascii :=
  if is_lower c then ascii_of_nat (nat_of_ascii c - 32) else c.

Definition to_lower (c : ascii) : ascii :=
  if is_upper c then ascii_of_nat (nat_of_ascii c + 32) else c.

(** [str.upper] *)
Fixpoint upper (s : string) : string :=
  match s with
  | EmptyString => EmptyString
  | String c s' => String (to_upper c) (upper s')
  end.

Fixpoint lstrip_by (p : ascii -> bool) (s : string) : string :=
  match s with
  | EmptyString => EmptyString
  | String c s' => if p c then lstrip_by p s' else s
  end.

Fixpoint rstrip_by (p : ascii -> bool) (s : string) : string :=
  match s with
  | EmptyString => EmptyString
  | String c s' =>
      let r := rstrip_by p s' in
      if String.eqb r "" && p c then "" else String c r
  end.

(** [str.strip()], [str.lstrip()] *)
Definition strip (s : string) : string := rstrip_by is_space (lstrip_by is_space s).
Definition lstrip (s : string) : string := lstrip_by is_space s.

Fixpoint mem_char (c : ascii) (chars : string) : bool :=
  match chars with
  | EmptyString => false
  | String d r => Ascii.eqb c d || mem_char c r
  end.

(** [str.strip(chars)] and [str.rstrip(chars)] *)
Definition strip_chars (chars s : string) : string :=
  rstrip_by (fun c => mem_char c chars) (lstrip_by (fun c => mem_char c chars) s).
Definition rstrip_chars (chars s : string) : string :=
  rstrip_by (fun c => mem_char c chars) s.

(** [s.startswith(pre)] *)
Fixpoint startswith (pre s : string) : bool :=
  match pre, s with
  | EmptyString, _ => true
  | String a pre', String b s' => Ascii.eqb a b && startswith pre' s'
  | String _ _, EmptyString => false
  end.

Fixpoint rev_str (s : string) : string :=
  match s with
  | EmptyString => EmptyString
  | String c s' => rev_str s' ++ String c EmptyString
  end.

(** [s.endswith(suf)] *)
Definition endswith (suf s : string) : bool := startswith (rev_str suf) (rev_str s).

(** [s[n:]] and [s[:n]] for [n >= 0] *)
Fixpoint drop (n : nat) (s : string) : string :=
  match n, s with
  | O, _ => s
  | S n', String _ s' => drop n' s'
  | S _, EmptyString => EmptyString
  end.
Definition take (n : nat) (s : string) : string := substring 0 n s.

(** [s[:-1]] *)
Definition drop_last (s : string) : string := take (String.length s - 1) s.

(** [sub in s] *)
Fixpoint contains (sub s : string) : bool :=
  startswith sub s ||
  match s with
  | EmptyString => false
  | String _ s' => contains sub s'
  end.

(** [s.replace(old, new)] for a non-empty [old]: left to right, non-overlapping. *)
Fixpoint replace_fuel (fuel : nat) (old new s : string) : string :=
  match fuel with
  | O => s
  | S f =>
      match s with
      | EmptyString => EmptyString
      | String c s' =>
          if startswith old s
          then new ++ replace_fuel f old new (drop (String.length old) s)
          else String c (replace_fuel f old new s')
      end
  end.
Definition replace (old new s : string) : string :=
  replace_fuel (S (String.length s)) old new s.

(** [s.split(sep)] for a non-empty [sep]. *)
Fixpoint split_fuel (fuel : nat) (sep s : string) : list string :=
  match fuel with
  | O => [s]
  | S f =>
      match s with
      | EmptyString => [""]
      | String c s' =>
          if startswith sep s
          then "" :: split_fuel f sep (drop (String.length sep) s)
          else match split_fuel f sep s' with
               | h :: t => String c h :: t
               | [] => [String c ""]
               end
      end
  end.
Definition split (sep s : string) : list string := split_fuel (S (String.length s)) sep s.

(** the maximal prefix of non-whitespace characters, and the rest *)
Fixpoint take_word (s : string) : string * string :=
  match s with
  | EmptyString => ("", "")
  | String c s' =>
      if is_space c then ("", s)
      else let (w, r) := take_word s' in (String c w, r)
  end.

(** [s.split(None, maxsplit)]: at most [maxsplit] cuts; the remainder keeps
    its trailing whitespace. *)
Fixpoint split_ws_max (maxsplit : nat) (s : string) : list string :=
  match lstrip s with
  | EmptyString => []
  | s1 =>
      match maxsplit with
      | O => [s1]
      | S m => let (w, r) := take_word s1 in w :: split_ws_max m r
      end
  end.

(** [s.split()] *)
Definition split_ws (s : string) : list string := split_ws_max (S (String.length s)) s.

(** [sep.join(l)] *)
Fixpoint join (sep : string) (l : list string) : string :=
  match l with
  | [] => ""
  | [x] => x
  | x :: t => x ++ sep ++ join sep t
  end.

(** [s.count(c)] for a single character *)
Fixpoint count_char (c : ascii) (s : string) : nat :=
  match s with
  | EmptyString => O
  | String d s' => (if Ascii.eqb c d then 1 else 0) + count_char c s'
  end.

Fixpoint repeat_str (n : nat) (s : string) : string :=
  match n with O => "" | S n' => s ++ repeat_str n' s end.

End PyStr.

(** ** Integers: [str(n)] and [int(s)] *)
Module PyNum.
Import PyStr.

Definition digit_char (d : N) : ascii := ascii_of_N (48 + d).
Definition digit_val (c : ascii) : N := N_of_ascii c - 48.

Fixpoint dec_aux (fuel : nat) (n : N) (acc : string) : string :=
  match fuel with
  | O => acc
  | S f =>
      let acc' := String (digit_char (n mod 10)) acc in
      if (n / 10 =? 0)%N then acc' else dec_aux f (n / 10) acc'
  end.

(** [str(n)] for [n >= 0] *)
Definition str_N (n : N) : string := dec_aux (S (N.to_nat n)) n "".

(** [str(z)] *)
Definition str_Z (z : Z) : string :=
  match z with
  | Zneg p => "-" ++ str_N (Npos p)
  | _ => str_N (Z.to_N z)
  end.

(** decimal digits with single underscores between them, as [int()] accepts *)
Fixpoint digits_val (prev_digit : bool) (acc : N) (s : string) : option N :=
  match s with
  | EmptyString => if prev_digit then Some acc else None
  | String c s' =>
      if is_digit c then digits_val true (10 * acc + digit_val c)%N s'
      else if Ascii.eqb c "_"%char && prev_digit then
        match s' with
        | String d _ => if is_digit d then digits_val false acc s' else None
        | EmptyString => None
        end
      else None
  end.

(** [int(s)] (ASCII digits; whitespace stripped; optional sign) *)
Definition py_int (s : string) : option Z :=
  match strip s with
  | String "-" r => option_map (fun n => (- Z.of_N n)%Z) (digits_val false 0 r)
  | String "+" r => option_map Z.of_N (digits_val false 0 r)
  | r => option_map Z.of_N (digits_val false 0 r)
  end.

Fixpoint all_digits (s : string) : bool :=
  match s with
  | EmptyString => true
  | String c s' => is_digit c && all_digits s'
  end.

Definition nonempty_digits (s : string) : bool :=
  negb (String.eqb s "") && all_digits s.

(** the part after the optional exponent marker of a float literal *)
Definition exponent_ok (s : string) : bool :=
  match s with
  | String "+" r | String "-" r => nonempty_digits r
  | r => nonempty_digits r
  end.

(** [float(s)] accepts: [digits], [digits.], [.digits], [digits.digits], each
    with an optional exponent, or inf / infinity / nan (any case). *)
Definition float_body_ok (s : string) : bool :=
  let lo := String.eqb (upper s) in
  lo "INF" || lo "INFINITY" || lo "NAN" ||
  match split "e" (replace "E" "e" s) with
  | [m] | [m; _] =>
      let e_ok := match split "e" (replace "E" "e" s) with
                  | [_; e] => exponent_ok e | _ => true end in
      e_ok &&
      match split "." m with
      | [a] => nonempty_digits a
      | [a; b] => (all_digits a && all_digits b) &&
                  negb (String.eqb a "" && String.eqb b "")
      | _ => false
      end
  | _ => false
  end.

Definition py_float_ok (s : string) : bool :=
  match strip s with
  | String "+" r | String "-" r => float_body_ok r
  | r => float_body_ok r
  end.

End PyNum.

(** ** Python values *)

(** The values the code handles: [None], [bool], [int], [float], [str],
    [list] and [dict] with string keys (insertion ordered). A float is kept as
    the literal text it was read from. *)
Inductive pyval : Type :=
| PNone
| PBool (b : bool)
| PInt (z : Z)
| PFloat (lit : string)
| PStr (s : string)
| PList (l : list pyval)
| PDict (kv : list (string * pyval)).

Module PyVal.
Import PyStr PyNum.

(** [d.get(k)] / [k in d] *)
Fixpoint lookup {A} (k : string) (kv : list (string * A)) : option A :=
  match kv with
  | [] => None
  | (k', v) :: t => if String.eqb k k' then Some v else lookup k t
  end.

(** [d[k] = v]: an existing key keeps its position. *)
Fixpoint dict_set {A} (k : string) (v : A) (kv : list (string * A)) : list (string * A) :=
  match kv with
  | [] => [(k, v)]
  | (k', v') :: t => if String.eqb k k' then (k', v) :: t else (k', v') :: dict_set k v t
  end.

(** [dict(pairs)] / [{k: v for k, v in pairs}] *)
Definition dict_of {A} (l : list (string * A)) : list (string * A) :=
  fold_left (fun d kv => dict_set (fst kv) (snd kv) d) l [].

Definition keys {A} (kv : list (string * A)) : list string := map fst kv.

(** Python truthiness *)
Definition truthy (v : pyval) : bool :=
  match v with
  | PNone => false
  | PBool b => b
  | PInt z => negb (Z.eqb z 0)
  | PFloat f => negb (existsb (String.eqb (strip f))
                        ["0"; "0."; ".0"; "0.0"; "-0.0"; "+0.0"; "-0"; "+0"])
  | PStr s => negb (String.eqb s "")
  | PList l => match l with [] => false | _ => true end
  | PDict kv => match kv with [] => false | _ => true end
  end.

(** [isinstance(v, (int, float))]; [bool] is a subclass of [int]. *)
Definition is_number (v : pyval) : bool :=
  match v with PBool _ | PInt _ | PFloat _ => true | _ => false end.

(** [v == 1] and [v == 0] *)
Definition eq_int (v : pyval) (n : Z) : bool :=
  match v with
  | PBool b => Z.eqb (if b then 1 else 0)%Z n
  | PInt z => Z.eqb z n
  | PFloat f => match py_int (replace ".0" "" f) with
                | Some z => String.eqb (str_Z z ++ ".0") (strip f) && Z.eqb z n
                | None => false
                end
  | _ => false
  end.

(** the one-character string made of a double quote *)
Definition dq : string := String (ascii_of_nat 34) EmptyString.

(** [repr] of a string: single quotes unless the text has a single quote and
    no double quote. *)
Definition repr_str (s : string) : string :=
  let esc := replace "\" "\\" s in
  let esc := replace (String "010" "") "\n" esc in
  let esc := replace (String "009" "") "\t" esc in
  let esc := replace (String "013" "") "\r" esc in
  if contains "'" s && negb (contains dq s)
  then dq ++ esc ++ dq
  else "'" ++ replace "'" "\'" esc ++ "'".

(** [repr(v)] *)
Fixpoint py_repr (v : pyval) : string :=
  match v with
  | PNone => "None"
  | PBool b => if b then "True" else "False"
  | PInt z => str_Z z
  | PFloat f => f
  | PStr s => repr_str s
  | PList l => "[" ++ join ", " (map py_repr l) ++ "]"
  | PDict kv =>
      "{" ++ join ", " ((fix go (kv : list (string * pyval)) : list string :=
                          match kv with
                          | [] => []
                          | (k, x) :: t => (repr_str k ++ ": " ++ py_repr x) :: go t
                          end) kv) ++ "}"
  end.

(** [str(v)] *)
Definition py_str (v : pyval) : string :=
  match v with
  | PStr s => s
  | _ => py_repr v
  end.

End PyVal.

(** ** Exceptions and the error monad *)

Inductive exc : Type :=
| SyntaxError
| ValueError
| TypeError
| AttributeError
| NotImplementedError.

Inductive res (A : Type) : Type :=
| Ok (a : A)
| Err (e : exc).
Arguments Ok {A} a.
Arguments Err {A} e.

Definition bind {A B} (m : res A) (k : A -> res B) : res B :=
  match m with Ok a => k a | Err e => Err e end.

Notation "'let*' x ':=' m 'in' k" := (bind m (fun x => k))
  (at level 200, x name, m at level 100, k at level 200).

(** [try: ... except Exception: raise ValueError(...)] *)
Definition reraise_value {A} (m : res A) : res A :=
  match m with Ok a => Ok a | Err _ => Err ValueError end.

(** [for x in l: ...] collecting results, stopping at the first exception *)
Fixpoint map_res {A B} (f : A -> res B) (l : list A) : res (list B) :=
  match l with
  | [] => Ok []
  | x :: t => let* y := f x in let* ys := map_res f t in Ok (y :: ys)
  end.

(** ** Python [re]: a backtracking matcher

    Patterns are trees; alternatives and repetitions are tried in Python's
    priority order (greedy repetitions try one more iteration first, lazy ones
    try to stop first), and the first complete match is the one [re] reports.
    The character classes are ASCII. *)
Module Rx.
Import PyStr.

Inductive rx : Type :=
| REps                                (** the empty pattern *)
| RChr (c : ascii)                    (** a literal character *)
| RChrI (c : ascii)                   (** a literal character under IGNORECASE *)
| RCls (p : ascii -> bool)            (** a character class *)
| RSeq (r1 r2 : rx)
| RAlt (r1 r2 : rx)                   (** [r1|r2] *)
| RStar (greedy : bool) (r : rx)      (** [r*] (greedy) or [r*?] (lazy) *)
| RGroup (n : nat) (r : rx)           (** capturing group number [n] *)
| RAhead (r : rx)                     (** [(?=r)] *)
| RNotBehind (c : ascii)              (** [(?<!c)] *)
| RWordB.                             (** [\b] *)

(** captured groups, most recent first *)
Definition caps := list (nat * string).

(** a position: the character before it (for look-behind) and the text after it *)
Definition kont := option ascii -> string -> caps -> option (option ascii * string * caps).

(** the repetition loop of [r*] / [r*?]: [m] matches one iteration of [r];
    an iteration that consumes nothing ends the loop *)
Fixpoint star_loop
  (m : option ascii -> string -> caps -> kont -> option (option ascii * string * caps))
  (g : bool) (k : kont) (n : nat) (p : option ascii) (s : string) (c : caps)
  : option (option ascii * string * caps) :=
  match n with
  | O => k p s c
  | S n' =>
      let more := m p s c (fun p' s' c' =>
                    if (String.length s' <? String.length s)%nat
                    then star_loop m g k n' p' s' c' else None) in
      if g then match more with Some x => Some x | None => k p s c end
      else match k p s c with Some x => Some x | None => more end
  end.

Fixpoint mt (r : rx) (p : option ascii) (s : string) (c : caps) (k : kont)
  : option (option ascii * string * caps) :=
  match r with
  | REps => k p s c
  | RChr a =>
      match s with
      | String b s' => if Ascii.eqb a b then k (Some b) s' c else None
      | EmptyString => None
      end
  | RChrI a =>
      match s with
      | String b s' => if Ascii.eqb (to_lower a) (to_lower b) then k (Some b) s' c else None
      | EmptyString => None
      end
  | RCls f =>
      match s with
      | String b s' => if f b then k (Some b) s' c else None
      | EmptyString => None
      end
  | RSeq r1 r2 => mt r1 p s c (fun p' s' c' => mt r2 p' s' c' k)
  | RAlt r1 r2 =>
      match mt r1 p s c k with
      | Some x => Some x
      | None => mt r2 p s c k
      end
  | RStar g r1 => star_loop (mt r1) g k (S (String.length s)) p s c
  | RGroup n r1 =>
      mt r1 p s c (fun p' s' c' =>
        k p' s' ((n, take (String.length s - String.length s') s) :: c'))
  | RAhead r1 =>
      match mt r1 p s c (fun p' s' c' => Some (p', s', c')) with
      | Some _ => k p s c
      | None => None
      end
  | RNotBehind a =>
      match p with
      | Some b => if Ascii.eqb a b then None else k p s c
      | None => k p s c
      end
  | RWordB =>
      let w1 := match p with Some b => is_word b | None => false end in
      let w2 := match s with String b _ => is_word b | EmptyString => false end in
      if xorb w1 w2 then k p s c else None
  end.

Definition done : kont := fun p s c => Some (p, s, c).

(** [m.group(n)]: [None] when the group did not take part in the match *)
Fixpoint group (c : caps) (n : nat) : option string :=
  match c with
  | [] => None
  | (m, t) :: c' => if Nat.eqb m n then Some t else group c' n
  end.

(** [re.search(r, s)]: the first position where [r] matches *)
Fixpoint search_from (r : rx) (p : option ascii) (s : string) : option caps :=
  match mt r p s [] done with
  | Some (_, _, c) => Some c
  | None =>
      match s with
      | EmptyString => None
      | String b s' => search_from r (Some b) s'
      end
  end.
Definition search (r : rx) (s : string) : option caps := search_from r None s.

(** [re.sub(r, repl, s)] for patterns that never match the empty string *)
Fixpoint sub_from (fuel : nat) (r : rx) (repl : caps -> string)
         (p : option ascii) (s : string) : string :=
  match fuel with
  | O => s
  | S f =>
      match s with
      | EmptyString => EmptyString
      | String b s' =>
          match mt r p s [] done with
          | Some (p', s'', c) =>
              if (String.length s'' <? String.length s)%nat
              then repl c ++ sub_from f r repl p' s''
              else String b (sub_from f r repl (Some b) s')
          | None => String b (sub_from f r repl (Some b) s')
          end
      end
  end.
Definition sub (r : rx) (repl : caps -> string) (s : string) : string :=
  sub_from (S (String.length s)) r repl None s.

(** building blocks *)
Fixpoint lit (s : string) : rx :=
  match s with
  | EmptyString => REps
  | String c s' => RSeq (RChr c) (lit s')
  end.
Fixpoint litI (s : string) : rx :=
  match s with
  | EmptyString => REps
  | String c s' => RSeq (RChrI c) (litI s')
  end.
Fixpoint seq (l : list rx) : rx :=
  match l with
  | [] => REps
  | [r] => r
  | r :: t => RSeq r (seq t)
  end.
Definition plus (g : bool) (r : rx) : rx := RSeq r (RStar g r).
(** [(?:r)?] (greedy) *)
Definition opt (r : rx) : rx := RAlt r REps.
Definition word : rx := RCls is_word.                      (** [\w] *)
Definition digit : rx := RCls is_digit.                    (** [\d] *)
Definition space : rx := RCls is_space.                    (** [\s] *)
Definition anychar : rx := RCls (fun _ => true).           (** [[\s\S]], or [.] under DOTALL *)
Definition dot : rx := RCls (fun c => negb (Ascii.eqb c (ascii_of_nat 10))). (** [.] *)

End Rx.

(** ** [sql_to_mongo.py] *)
Module SqlToMongo.
Import PyStr PyNum PyVal Rx.

(** *** The token trees of the [sqlparse] library

    [sqlparse.parse] is a library call; its result is modelled as the list of
    top-level tokens of each statement. Plain tokens carry their token type;
    grouped tokens ([Identifier], [IdentifierList], [Where], other groups)
    have no token type of their own. *)
Inductive ttype : Type := TDML | TDDL | TKeyword | TPunct | TWS | TName | TNum | TOp | TOther.

Inductive sqltok : Type :=
| Leaf (tt : ttype) (v : string)
| Identifier (v : string)
| IdentifierList (idents : list string) (v : string)
| Where (v : string)
| Group (v : string).

Definition statement := list sqltok.

(** [str(token)] *)
Definition tok_str (t : sqltok) : string :=
  match t with
  | Leaf _ v | Identifier v | IdentifierList _ v | Where v | Group v => v
  end.

Definition is_ws (t : sqltok) : bool :=
  match t with Leaf TWS _ => true | _ => false end.

Definition ttype_eqb (a b : ttype) : bool :=
  match a, b with
  | TDML, TDML | TDDL, TDDL | TKeyword, TKeyword | TPunct, TPunct | TWS, TWS
  | TName, TName | TNum, TNum | TOp, TOp | TOther, TOther => true
  | _, _ => false
  end.

(** [token.ttype is tt] *)
Definition has_ttype (tt : ttype) (t : sqltok) : bool :=
  match t with Leaf tt' _ => ttype_eqb tt tt' | _ => false end.

(** [token.ttype is tt and token.value.upper() == w] *)
Definition is_tok (tt : ttype) (w : string) (t : sqltok) : bool :=
  has_ttype tt t && String.eqb (upper (tok_str t)) w.

Definition is_where (t : sqltok) : bool :=
  match t with Where _ => true | _ => false end.

(** [Statement.get_type()]: the first keyword when it is DML or DDL. *)
Definition get_type (st : statement) : string :=
  match filter (fun t => negb (is_ws t)) st with
  | Leaf TDML v :: _ | Leaf TDDL v :: _ => upper v
  | _ => "UNKNOWN"
  end.

(** *** Literals *)

(** [convert_value] *)
Definition convert_value (val : string) : pyval :=
  match py_int val with
  | Some z => PInt z
  | None => if py_float_ok val then PFloat (strip val) else PStr val
  end.

(** [_parse_sql_value] *)
Definition parse_sql_value (value : string) : pyval :=
  let value := strip value in
  if (startswith "'" value && endswith "'" value) ||
     (startswith dq value && endswith dq value)
  then PStr (substring 1 (String.length value - 2) value)
  else if String.eqb (upper value) "NULL" then PNone
  else if String.eqb (upper value) "TRUE" then PBool true
  else if String.eqb (upper value) "FALSE" then PBool false
  else if contains "." value
  then (if py_float_ok value then PFloat (strip value) else PStr value)
  else match py_int value with Some z => PInt z | None => PStr value end.

(** *** WHERE *)

(** the entry one conjunct [field op val] contributes *)
Definition where_entry (op val : string) : pyval :=
  if String.eqb op "=" then PStr val
  else if String.eqb op ">" then PDict [("$gt", convert_value val)]
  else if String.eqb op "<" then PDict [("$lt", convert_value val)]
  else if String.eqb op ">=" then PDict [("$gte", convert_value val)]
  else if String.eqb op "<=" then PDict [("$lte", convert_value val)]
  else PDict [("$op?", PStr val)].

(** [parse_where_conditions] *)
Definition parse_where_conditions (text : string) : list (string * pyval) :=
  let text := rstrip_chars ";" (strip text) in
  if String.eqb text "" then []
  else
    fold_left
      (fun out part =>
         match split_ws_max 2 part with
         | field :: op :: val :: _ =>
             let val := strip_chars dq (strip_chars "'" (rstrip_chars ";" (strip val))) in
             dict_set field (where_entry op val) out
         | _ => out
         end)
      (split " AND " text) [].

(** [extract_where_clause] *)
Definition extract_where_clause (t : sqltok) : list (string * pyval) :=
  let raw := strip (tok_str t) in
  let raw := if startswith "WHERE" (upper raw) then strip (drop 5 raw) else raw in
  parse_where_conditions raw.

(** *** Columns, ORDER BY, GROUP BY, LIMIT *)

(** [extract_columns] *)
Definition extract_columns (t : sqltok) : list string :=
  match t with
  | IdentifierList ids _ => map strip ids
  | Identifier v => [strip v]
  | _ =>
      let raw := replace " " "" (strip (tok_str t)) in
      if String.eqb raw "" then [] else [raw]
  end.

(** [parse_order_by] *)
Definition parse_order_by (t : sqltok) : list (string * Z) :=
  let raw := rstrip_chars ";" (strip (tok_str t)) in
  if String.eqb raw "" then []
  else
    map (fun part =>
           match split_ws (strip part) with
           | [f] => (f, 1%Z)
           | [f; d] =>
               if String.eqb (upper d) "ASC" then (f, 1%Z)
               else if String.eqb (upper d) "DESC" then (f, (-1)%Z)
               else (f, 1%Z)
           | _ => (strip part, 1%Z)
           end)
        (split "," raw).

(** [parse_group_by] *)
Definition parse_group_by (t : sqltok) : list string :=
  let raw := rstrip_chars ";" (strip (tok_str t)) in
  if String.eqb raw "" then [] else map strip (split "," raw).

(** [parse_limit_value] *)
Definition parse_limit_value (t : sqltok) : option Z :=
  py_int (rstrip_chars ";" (strip (tok_str t))).

(** *** [parse_select_statement]: the single-pass token loop *)

Record sel : Type := mk_sel {
  s_cols : list string;
  s_table : option string;
  s_where : list (string * pyval);
  s_order : list (string * Z);
  s_group : list string;
  s_limit : option Z;
  s_found_select : bool;
  s_reading_columns : bool;
  s_reading_from : bool }.

Definition sel0 : sel := mk_sel [] None [] [] [] None false false false.

Definition with_cols st x := mk_sel x (s_table st) (s_where st) (s_order st) (s_group st) (s_limit st) (s_found_select st) (s_reading_columns st) (s_reading_from st).
Definition with_table st x := mk_sel (s_cols st) x (s_where st) (s_order st) (s_group st) (s_limit st) (s_found_select st) (s_reading_columns st) (s_reading_from st).
Definition with_where st x := mk_sel (s_cols st) (s_table st) x (s_order st) (s_group st) (s_limit st) (s_found_select st) (s_reading_columns st) (s_reading_from st).
Definition with_order st x := mk_sel (s_cols st) (s_table st) (s_where st) x (s_group st) (s_limit st) (s_found_select st) (s_reading_columns st) (s_reading_from st).
Definition with_group st x := mk_sel (s_cols st) (s_table st) (s_where st) (s_order st) x (s_limit st) (s_found_select st) (s_reading_columns st) (s_reading_from st).
Definition with_limit st x := mk_sel (s_cols st) (s_table st) (s_where st) (s_order st) (s_group st) x (s_found_select st) (s_reading_columns st) (s_reading_from st).
Definition with_flags st f c r := mk_sel (s_cols st) (s_table st) (s_where st) (s_order st) (s_group st) (s_limit st) f c r.

Definition tok_at (toks : list sqltok) (i : nat) : sqltok := nth i toks (Group "").

(** [while i < len(tokens): ...]; [fuel] bounds the iterations, each of
    which advances [i]. *)
Fixpoint select_loop (fuel : nat) (toks : list sqltok) (i : nat) (st : sel) : sel :=
  match fuel with
  | O => st
  | S f =>
    let next j st := select_loop f toks j st in
    let n := List.length toks in
    if (i <? n)%nat then
      let token := tok_at toks i in
      if is_tok TDML "SELECT" token then
        next (i + 1)%nat (with_flags st true true (s_reading_from st))
      else if s_reading_columns st then
        if is_tok TKeyword "FROM" token then
          next (i + 1)%nat (with_flags st (s_found_select st) false true)
        else
          let pc := extract_columns token in
          next (i + 1)%nat (match pc with [] => st | _ => with_cols st pc end)
      else if s_reading_from st then
        if has_ttype TKeyword token then
          next (i + 1)%nat (with_flags st (s_found_select st) (s_reading_columns st) false)
        else
          next (i + 1)%nat (with_flags (with_table st (Some (strip (tok_str token))))
                              (s_found_select st) (s_reading_columns st) false)
      else if is_where token then
        next (i + 1)%nat (with_where st (extract_where_clause token))
      else if is_tok TKeyword "WHERE" token then
        if (i + 1 <? n)%nat then
          let nt := tok_at toks (i + 1) in
          if is_where nt then next (i + 2)%nat (with_where st (extract_where_clause nt))
          else next (i + 2)%nat (with_where st (parse_where_conditions (strip (tok_str nt))))
        else next (i + 1)%nat st
      else if is_tok TKeyword "ORDER" token then
        let i1 := (i + 1)%nat in
        if (i1 <? n)%nat then
          if is_tok TKeyword "BY" (tok_at toks i1) then
            let i2 := (i1 + 1)%nat in
            if (i2 <? n)%nat then next (i2 + 1)%nat (with_order st (parse_order_by (tok_at toks i2)))
            else next (i2 + 1)%nat st
          else next (i1 + 1)%nat st
        else next (i1 + 1)%nat st
      else if is_tok TKeyword "GROUP" token then
        let i1 := (i + 1)%nat in
        if (i1 <? n)%nat then
          if is_tok TKeyword "BY" (tok_at toks i1) then
            let i2 := (i1 + 1)%nat in
            if (i2 <? n)%nat then next (i2 + 1)%nat (with_group st (parse_group_by (tok_at toks i2)))
            else next (i2 + 1)%nat st
          else next (i1 + 1)%nat st
        else next (i1 + 1)%nat st
      else if is_tok TKeyword "LIMIT" token then
        if (i + 1 <? n)%nat then next (i + 2)%nat (with_limit st (parse_limit_value (tok_at toks (i + 1))))
        else next (i + 1)%nat st
      else next (i + 1)%nat st
    else st
  end.

(** [parse_select_statement] *)
Definition parse_select_statement (stmt : statement) : sel :=
  let toks := filter (fun t => negb (is_ws t)) stmt in
  select_loop (S (List.length toks)) toks 0 sel0.

(** *** The query object and its rendering *)

(** The dict [build_mongo_query] returns ([sort] empty when absent; [skip]
    is a key the renderer could be handed, it is never set on this side). *)
Record mquery : Type := mk_mquery {
  q_collection : string;
  q_find : list (string * pyval);
  q_projection : option (list (string * pyval));
  q_sort : list (string * Z);
  q_limit : option Z;
  q_skip : option Z;
  q_group : option pyval }.

(** [build_mongo_find] *)
Definition build_mongo_find (table : string) (where_clause : list (string * pyval))
  (columns : list string) : mquery :=
  let projection :=
    match columns with
    | [] => []
    | _ => if existsb (String.eqb "*") columns then []
           else dict_of (map (fun c => (c, PInt 1)) columns)
    end in
  mk_mquery table where_clause
    (match projection with [] => None | _ => Some projection end) [] None None None.

(** [build_mongo_query] *)
Definition build_mongo_query (table : string) (columns : list string)
  (where_clause : list (string * pyval)) (order_by : list (string * Z))
  (group_by : list string) (limit_val : option Z) : mquery :=
  let q := build_mongo_find table where_clause columns in
  let grp :=
    match group_by with
    | [] => None
    | _ => Some (PDict [("$group",
                         PDict [("_id", PDict (dict_of (map (fun gb => (gb, PStr ("$" ++ gb))) group_by)));
                                ("count", PDict [("$sum", PInt 1)])])])
    end in
  mk_mquery (q_collection q) (q_find q) (q_projection q) order_by limit_val None grp.

(** [_format_json] *)
Fixpoint format_json (v : pyval) : string :=
  match v with
  | PDict kv =>
      "{ " ++ join ", " ((fix go (kv : list (string * pyval)) : list string :=
                           match kv with
                           | [] => []
                           | (k, x) :: t => (k ++ ": " ++ format_json x) :: go t
                           end) kv) ++ " }"
  | PList l => "[ " ++ join ", " (map format_json l) ++ " ]"
  | PStr s => dq ++ replace dq ("\" ++ dq) s ++ dq
  | PNone => "null"
  | _ => py_str v
  end.

(** [_format_mongo_find] *)
Definition format_mongo_find (q : mquery) : string :=
  "db." ++ q_collection q ++ ".find(" ++ format_json (PDict (q_find q)) ++
  (match q_projection q with
   | Some ((_ :: _) as p) => ", " ++ format_json (PDict p)
   | _ => ""
   end) ++ ")" ++
  (match q_sort q with
   | [] => ""
   | sort => ".sort(" ++ format_json (PDict (dict_of (map (fun fd => (fst fd, PInt (snd fd))) sort))) ++ ")"
   end) ++
  (match q_limit q with
   | Some l => if Z.eqb l 0 then "" else ".limit(" ++ str_Z l ++ ")"
   | None => ""
   end).

(** [_format_mongo_aggregate] *)
Definition format_mongo_aggregate (collection : string) (pipeline : list pyval) : string :=
  "db." ++ collection ++ ".aggregate(" ++ format_json (PList pipeline) ++ ")".

(** *** Statement handlers and the entry point *)

(** [r"\bJOIN\b"] with IGNORECASE *)
Definition join_re : rx := seq [RWordB; litI "JOIN"; RWordB].
(** [r"SELECT\s+(.*?)\s+FROM"] with IGNORECASE and DOTALL *)
Definition cols_re : rx :=
  seq [litI "SELECT"; plus true space; RGroup 1 (RStar false anychar); plus true space; litI "FROM"].

Section Handlers.
(** The JOIN path ([_handle_join_query] and its formatting) and the INSERT,
    UPDATE and DELETE handlers are not used by the properties below; they
    are left as parameters. [sqlparse_parse] is the library's splitter and
    token grouper. *)
Variable handle_join : string -> res string.
Variables handle_insert handle_update handle_delete : statement -> string -> res string.
Variable sqlparse_parse : string -> list statement.

(** [_handle_select] *)
Definition handle_select (stmt : statement) (sql_query : string) : res string :=
  match search join_re sql_query with
  | Some _ => handle_join sql_query
  | None =>
    let bad_cols :=
      match search cols_re sql_query with
      | Some c =>
          match group c 1 with
          | Some g =>
              let cols_txt := strip g in
              negb (String.eqb cols_txt "") && negb (String.eqb cols_txt "*") &&
              negb (contains "," cols_txt) && (1 <? List.length (split_ws cols_txt))%nat
          | None => false
          end
      | None => false
      end in
    if bad_cols then Err SyntaxError else
    let st := parse_select_statement stmt in
    if forallb (String.eqb "") (s_cols st) then Err SyntaxError else
    match s_table st with
    | None => Err ValueError
    | Some table =>
        if String.eqb table "" then Err ValueError else
        let q := build_mongo_query table (s_cols st) (s_where st) (s_order st)
                   (s_group st) (s_limit st) in
        match q_group q with
        | Some g => Ok (format_mongo_aggregate (q_collection q) [g])
        | None => Ok (format_mongo_find q)
        end
    end
  end.

(** [sql_to_mongo] *)
Definition sql_to_mongo (sql_query : string) : res string :=
  match sqlparse_parse sql_query with
  | [statement] =>
      let statement_type := upper (get_type statement) in
      if String.eqb statement_type "SELECT" then handle_select statement sql_query
      else if String.eqb statement_type "INSERT" then handle_insert statement sql_query
      else if String.eqb statement_type "UPDATE" then handle_update statement sql_query
      else if String.eqb statement_type "DELETE" then handle_delete statement sql_query
      else Err NotImplementedError
  | _ => Err SyntaxError
  end.

End Handlers.

End SqlToMongo.

(** ** [mongo_to_sql.py] *)
Module MongoToSql.
Import PyStr PyNum PyVal Rx.

(** *** [_parse_mongo_json] *)

(** the rewrite of a bare operator [gt] followed by a colon (with the
    spaces around it kept) into the quoted [$gt], and likewise for the nine
    other operators *)
Definition op_pattern (w : string) : rx :=
  seq [RGroup 1 (RStar true space); lit w; RGroup 2 (RStar true space); lit ":"].
Definition op_repl (w : string) (c : caps) : string :=
  match group c 1 with Some g => g | None => "" end ++ dq ++ "$" ++ w ++ dq ++
  match group c 2 with Some g => g | None => "" end ++ ":".
Definition bare_ops : list string := ["gt"; "gte"; "lt"; "lte"; "eq"; "ne"; "in"; "nin"; "or"; "and"].

(** the key pattern: a run of word characters not preceded by a double
    quote and followed by optional spaces and a colon; and [quote_keys] *)
Definition key_pattern : rx :=
  seq [RNotBehind (ascii_of_nat 34); RGroup 1 (plus true word);
       RAhead (seq [RStar true space; lit ":"])].
Definition quote_keys (c : caps) : string :=
  dq ++ match group c 1 with Some g => g | None => "" end ++ dq ++ ":".

Definition dollar_ops : list string :=
  ["$gt"; "$gte"; "$lt"; "$lte"; "$eq"; "$ne"; "$in"; "$nin"; "$regex"; "$exists"; "$or"; "$and"].

(** the rewriting done before decoding (steps 1 to 3 of the method) *)
Definition normalize (js : string) : string :=
  let js := fold_left (fun s w => sub (op_pattern w) (op_repl w) s) bare_ops js in
  let js := sub key_pattern quote_keys js in
  fold_left (fun s op =>
               let s := replace (dq ++ op ++ dq) (dq ++ op ++ dq) s in
               replace (op ++ ":") (dq ++ op ++ dq ++ ":") s) dollar_ops js.

(** the rewriting done before the [ast.literal_eval] fallback *)
Definition py_keywords (js : string) : string :=
  replace "null" "None" (replace "false" "False" (replace "true" "True" js)).

Section ParseJson.
(** [json.loads] and [ast.literal_eval]: [None] is a decoding exception. *)
Variables json_loads literal_eval : string -> option pyval.

Definition parse_mongo_json (js_obj_str : string) : res pyval :=
  let js := strip js_obj_str in
  if String.eqb js "" || String.eqb js "{}" then Ok (PDict []) else
  let js := normalize js in
  match json_loads js with
  | Some v => Ok v
  | None =>
      match literal_eval (py_keywords js) with
      | Some v => Ok v
      | None => Err ValueError
      end
  end.
End ParseJson.

(** [_balance_brackets] *)
Definition balance_brackets (js : string) : string :=
  let open_curly := count_char "{" js in
  let close_curly := count_char "}" js in
  let open_square := count_char "[" js in
  let close_square := count_char "]" js in
  let js := if (close_curly <? open_curly)%nat then js ++ repeat_str (open_curly - close_curly) "}" else js in
  if (close_square <? open_square)%nat then js ++ repeat_str (open_square - close_square) "]" else js.

(** *** The two decoders, on the literal forms the translator meets

    Objects with string keys, arrays, strings (a backslash followed by a double
    quote, a single quote, a backslash, a slash, n, t or r), integers, decimal floats and the three
    keywords ([true]/[false]/[null] for JSON, [True]/[False]/[None] for
    Python). Python literals also take single-quoted strings and a trailing
    comma. Inputs outside these forms are refused. *)
Inductive lmode : Type := JsonMode | PyMode.

Definition json_space (c : ascii) : bool :=
  existsb (fun n => Nat.eqb (nat_of_ascii c) n) [32; 9; 10; 13]%nat.

Definition skip_ws (m : lmode) (s : string) : string :=
  match m with JsonMode => lstrip_by json_space s | PyMode => lstrip s end.

Fixpoint parse_str_body (q : ascii) (m : lmode) (s : string) : option (string * string) :=
  match s with
  | EmptyString => None
  | String c r =>
      if Ascii.eqb c q then Some ("", r)
      else if (nat_of_ascii c <? 32)%nat then None
      else if Ascii.eqb c "\"%char then
        match r with
        | String e r' =>
            let out :=
              if Ascii.eqb e (ascii_of_nat 34) || Ascii.eqb e "\"%char || Ascii.eqb e "/"%char then Some e
              else if Ascii.eqb e "'"%char then (match m with PyMode => Some e | JsonMode => None end)
              else if Ascii.eqb e "n"%char then Some (ascii_of_nat 10)
              else if Ascii.eqb e "t"%char then Some (ascii_of_nat 9)
              else if Ascii.eqb e "r"%char then Some (ascii_of_nat 13)
              else None in
            match out with
            | Some e' => option_map (fun '(b, rest) => (String e' b, rest)) (parse_str_body q m r')
            | None => None
            end
        | EmptyString => None
        end
      else option_map (fun '(b, rest) => (String c b, rest)) (parse_str_body q m r)
  end.

Fixpoint take_while (p : ascii -> bool) (s : string) : string * string :=
  match s with
  | String c r => if p c then let (a, b) := take_while p r in (String c a, b) else ("", s)
  | EmptyString => ("", "")
  end.

Definition num_char (c : ascii) : bool :=
  is_digit c || mem_char c ".eE+-".

(** a number: an [int] unless it has a fraction or an exponent *)
Definition parse_number (s : string) : option (pyval * string) :=
  let (tok, rest) := take_while num_char s in
  let body := match tok with String "-" b => b | b => b end in
  let (ip, _) := take_while is_digit body in
  if String.eqb ip "" then None
  else if (1 <? String.length ip)%nat && startswith "0" ip then None
  else if nonempty_digits body then
    option_map (fun z => (PInt z, rest)) (py_int tok)
  else if py_float_ok tok && negb (startswith "+" tok) then Some (PFloat tok, rest)
  else None.

Definition keyword_vals (m : lmode) : list (string * pyval) :=
  match m with
  | JsonMode => [("true", PBool true); ("false", PBool false); ("null", PNone)]
  | PyMode => [("True", PBool true); ("False", PBool false); ("None", PNone)]
  end.

Fixpoint parse_keyword (kws : list (string * pyval)) (s : string) : option (pyval * string) :=
  match kws with
  | [] => None
  | (w, v) :: t => if startswith w s then Some (v, drop (String.length w) s) else parse_keyword t s
  end.

Definition is_quote (m : lmode) (c : ascii) : bool :=
  Ascii.eqb c (ascii_of_nat 34) ||
  match m with PyMode => Ascii.eqb c "'"%char | JsonMode => false end.

Definition trailing_comma_ok (m : lmode) : bool :=
  match m with PyMode => true | JsonMode => false end.

Fixpoint parse_value (fuel : nat) (m : lmode) (s : string) : option (pyval * string) :=
  match fuel with
  | O => None
  | S f =>
    match skip_ws m s with
    | String "{" r =>
        (* members; [first] is true before the first member or after a comma *)
        (fix members (g : nat) (s : string) (acc : list (string * pyval)) (first : bool)
           : option (pyval * string) :=
           match g with
           | O => None
           | S g' =>
             match skip_ws m s with
             | String "}" r' =>
                 if first && negb (trailing_comma_ok m) && negb (match acc with [] => true | _ => false end)
                 then None else Some (PDict acc, r')
             | String q r' =>
                 if first && is_quote m q then
                   match parse_str_body q m r' with
                   | Some (k, r1) =>
                       match skip_ws m r1 with
                       | String ":" r2 =>
                           match parse_value f m r2 with
                           | Some (v, r3) =>
                               let acc := dict_set k v acc in
                               match skip_ws m r3 with
                               | String "," r4 => members g' r4 acc true
                               | String "}" r4 => Some (PDict acc, r4)
                               | _ => None
                               end
                           | None => None
                           end
                       | _ => None
                       end
                   | None => None
                   end
                 else None
             | EmptyString => None
             end
           end) f r [] true
    | String "[" r =>
        (fix elems (g : nat) (s : string) (acc : list pyval) (first : bool)
           : option (pyval * string) :=
           match g with
           | O => None
           | S g' =>
             match skip_ws m s with
             | String "]" r' =>
                 if first && negb (trailing_comma_ok m) && negb (match acc with [] => true | _ => false end)
                 then None else Some (PList (rev acc), r')
             | s' =>
                 if first then
                   match parse_value f m s' with
                   | Some (v, r3) =>
                       match skip_ws m r3 with
                       | String "," r4 => elems g' r4 (v :: acc) true
                       | String "]" r4 => Some (PList (rev (v :: acc)), r4)
                       | _ => None
                       end
                   | None => None
                   end
                 else None
             end
           end) f r [] true
    | String q r =>
        if is_quote m q then option_map (fun '(b, rest) => (PStr b, rest)) (parse_str_body q m r)
        else if is_digit q || Ascii.eqb q "-"%char then parse_number (String q r)
        else parse_keyword (keyword_vals m) (String q r)
    | EmptyString => None
    end
  end.

Definition decode (m : lmode) (s : string) : option pyval :=
  match parse_value (S (String.length s)) m s with
  | Some (v, rest) => if String.eqb (skip_ws m rest) "" then Some v else None
  | None => None
  end.

(** [json.loads] and [ast.literal_eval] on those forms *)
Definition json_loads : string -> option pyval := decode JsonMode.
Definition literal_eval : string -> option pyval := decode PyMode.

(** [_parse_mongo_json] / [_safe_eval] with the two decoders *)
Definition safe_eval : string -> res pyval := parse_mongo_json json_loads literal_eval.

(** *** [_split_respecting_brackets] *)
Fixpoint split_brackets_loop (s : string) (bracket_count : Z) (current_part : string)
    (parts : list string) : list string :=
  match s with
  | EmptyString =>
      if String.eqb current_part "" then rev parts else rev (strip current_part :: parts)
  | String ch r =>
      let bc := if mem_char ch "{[(" then (bracket_count + 1)%Z
                else if mem_char ch "}])" then (bracket_count - 1)%Z
                else bracket_count in
      if Ascii.eqb ch ","%char && Z.eqb bc 0
      then split_brackets_loop r bc "" (strip current_part :: parts)
      else split_brackets_loop r bc (current_part ++ String ch "") parts
  end.
Definition split_respecting_brackets (text : string) : list string :=
  split_brackets_loop text 0 "" [].

(** *** [_convert_operator], [_build_basic_conditions], [_build_where_sql] *)
Definition escape_quotes (s : string) : string := replace "'" "''" s.

Definition quote_if_needed (v : pyval) : string :=
  match v with
  | PNone => "NULL"
  | _ => if is_number v then py_str v else "'" ++ escape_quotes (py_str v) ++ "'"
  end.

Definition op_map (op : string) : option string :=
  lookup op [("$gt", ">"); ("$gte", ">="); ("$lt", "<"); ("$lte", "<=");
             ("$eq", "="); ("$ne", "<>"); ("$regex", "LIKE")].

(** [len(v)] *)
Definition py_len (v : pyval) : res nat :=
  match v with
  | PStr s => Ok (String.length s)
  | PList l => Ok (List.length l)
  | PDict kv => Ok (List.length kv)
  | _ => Err TypeError
  end.

Definition convert_operator (field op : string) (val : pyval) : res string :=
  let rest (val_str : string) : res string :=
    match op_map op with
    | Some sql_op =>
        if String.eqb val_str "NULL" && String.eqb sql_op "=" then Ok (field ++ " IS NULL")
        else if String.eqb val_str "NULL" && String.eqb sql_op "<>" then Ok (field ++ " IS NOT NULL")
        else if String.eqb op "$regex" then
          let pattern := py_str val in
          if startswith "^" pattern then
            Ok (field ++ " LIKE '" ++ escape_quotes (drop 1 pattern) ++ "%'")
          else if endswith "$" pattern then
            Ok (field ++ " LIKE '%" ++ escape_quotes (drop_last pattern) ++ "'")
          else Ok (field ++ " LIKE '%" ++ escape_quotes pattern ++ "%'")
        else Ok (field ++ " " ++ sql_op ++ " " ++ val_str)
    | None =>
        if String.eqb op "$in" then
          if negb (truthy val) then Ok "FALSE" else
          let* n := py_len val in
          if Nat.eqb n 0 then Ok "FALSE" else Ok (field ++ " IN (" ++ val_str ++ ")")
        else if String.eqb op "$nin" then
          if negb (truthy val) then Ok "TRUE" else
          let* n := py_len val in
          if Nat.eqb n 0 then Ok "TRUE" else Ok (field ++ " NOT IN (" ++ val_str ++ ")")
        else if String.eqb op "$exists" then
          if truthy val then Ok (field ++ " IS NOT NULL") else Ok (field ++ " IS NULL")
        else Ok (field ++ " /*unknown op " ++ op ++ "*/ " ++ val_str)
    end in
  match val with
  | PNone =>
      if String.eqb op "$eq" then Ok (field ++ " IS NULL")
      else if String.eqb op "$ne" then Ok (field ++ " IS NOT NULL")
      else rest "NULL"
  | PList l => rest (join ", " (map quote_if_needed l))
  | _ => if is_number val then rest (py_str val)
         else rest ("'" ++ escape_quotes (py_str val) ++ "'")
  end.

Definition basic_clause (field : string) (expr : pyval) : res (list string) :=
  match expr with
  | PDict ops =>
      let* cl := map_res (fun '(op, v) => convert_operator field op v) ops in
      Ok (filter (fun c => negb (String.eqb c "")) cl)
  | PNone => Ok [field ++ " IS NULL"]
  | _ => if is_number expr then Ok [field ++ " = " ++ py_str expr]
         else Ok [field ++ " = '" ++ escape_quotes (py_str expr) ++ "'"]
  end.

Definition build_basic_conditions (condition_dict : list (string * pyval)) : res string :=
  let* clauses := map_res (fun '(f, e) => basic_clause f e) condition_dict in
  Ok (join " AND " (concat clauses)).

(** [for sub in v] *)
Definition py_iter (v : pyval) : res (list pyval) :=
  match v with
  | PList l => Ok l
  | PDict kv => Ok (map (fun k => PStr k) (keys kv))
  | PStr s => Ok (map (fun c => PStr (String c "")) (list_ascii_of_string s))
  | _ => Err TypeError
  end.

(** nesting depth, bounding the recursion of [_build_where_sql] *)
Fixpoint depth (v : pyval) : nat :=
  match v with
  | PList l => S (fold_right (fun x m => Nat.max (depth x) m) O l)
  | PDict kv => S (fold_right (fun '(_, x) m => Nat.max (depth x) m) O kv)
  | _ => O
  end.

Definition nonempty_join (sep : string) (l : list string) : string :=
  "(" ++ join sep (filter (fun c => negb (String.eqb c "")) l) ++ ")".

Fixpoint where_sql_fuel (fuel : nat) (find_filter : pyval) : res string :=
  match fuel with
  | O => Ok ""
  | S f =>
    if negb (truthy find_filter) then Ok "" else
    match find_filter with
    | PDict kv =>
        match lookup "$and" kv with
        | Some sub =>
            let* subs := py_iter sub in
            let* conds := map_res (where_sql_fuel f) subs in
            Ok (nonempty_join ") AND (" conds)
        | None =>
            match lookup "$or" kv with
            | Some sub =>
                let* subs := py_iter sub in
                let* conds := map_res (where_sql_fuel f) subs in
                Ok (nonempty_join ") OR (" conds)
            | None => build_basic_conditions kv
            end
        end
    | PList l =>
        let* conds := map_res (where_sql_fuel f) l in
        Ok (nonempty_join ") AND (" conds)
    | _ => Ok ""
    end
  end.

Definition build_where_sql (find_filter : pyval) : res string :=
  where_sql_fuel (S (depth find_filter)) find_filter.

(** *** [_build_order_by_sql] and [_mongo_find_to_sql] (the [find] case) *)
Definition build_order_by_sql (sort_list : list (string * pyval)) : string :=
  join ", " (map (fun '(field, direction) =>
                    field ++ " " ++ (if eq_int direction 1 then "ASC" else "DESC")) sort_list).

(** the dict built by [_handle_find]; an absent [sort], [limit] or [skip]
    key is the empty list or [None] *)
Record findobj : Type := mk_findobj {
  f_collection : string;
  f_find : pyval;
  f_projection : pyval;
  f_sort : list (string * pyval);
  f_limit : option Z;
  f_skip : option Z
}.

Definition projection_ok (projection : pyval) : bool :=
  match projection with
  | PDict kv => forallb (fun '(_, v) => eq_int v 0 || eq_int v 1) kv
  | _ => false
  end.

Definition columns_of (projection : pyval) : string :=
  match projection with
  | PDict kv =>
      match filter (fun '(_, inc) => eq_int inc 1) kv with
      | [] => "*"
      | l => join ", " (map fst l)
      end
  | _ => "*"
  end.

Definition limit_skip_sql (limit_val skip_val : option Z) : string :=
  match limit_val with
  | Some l =>
      if (0 <? l)%Z then
        " LIMIT " ++ str_Z l ++
        match skip_val with Some s => if (0 <? s)%Z then " OFFSET " ++ str_Z s else "" | None => "" end
      else match skip_val with
           | Some s => if (0 <? s)%Z then " LIMIT 18446744073709551615 OFFSET " ++ str_Z s else ""
           | None => ""
           end
  | None =>
      match skip_val with
      | Some s => if (0 <? s)%Z then " LIMIT 18446744073709551615 OFFSET " ++ str_Z s else ""
      | None => ""
      end
  end.

Definition mongo_find_to_sql (o : findobj) : res string :=
  if negb (projection_ok (f_projection o)) then Err ValueError else
  let columns := columns_of (f_projection o) in
  let* where_sql := build_where_sql (f_find o) in
  let order_sql := build_order_by_sql (f_sort o) in
  Ok ("SELECT " ++ columns ++ " FROM " ++ f_collection o ++
      (if String.eqb where_sql "" then "" else " WHERE " ++ where_sql) ++
      (if String.eqb order_sql "" then "" else " ORDER BY " ++ order_sql) ++
      limit_skip_sql (f_limit o) (f_skip o) ++ ";").

(** *** [_handle_find] *)

(** [find_pattern] *)
Definition find_pattern : rx :=
  seq [lit "db."; RGroup 1 (plus true word); lit ".find(";
       RGroup 2 (RStar false anychar); lit ")";
       opt (seq [lit ".sort("; RGroup 3 (RStar false anychar); lit ")"]);
       opt (seq [lit ".limit("; RGroup 4 (plus true digit); lit ")"]);
       opt (seq [lit ".skip("; RGroup 5 (plus true digit); lit ")"])].

Definition gr (c : caps) (n : nat) : string :=
  match group c n with Some g => g | None => "" end.

(** [int(s) if s else None] *)
Definition opt_int (s : option string) : res (option Z) :=
  match s with
  | Some s => if String.eqb s "" then Ok None
              else match py_int s with Some z => Ok (Some z) | None => Err ValueError end
  | None => Ok None
  end.

(** everything [_handle_find] does before [_mongo_find_to_sql] *)
Definition handle_find_parse (mongo_query : string) : res findobj :=
  match search find_pattern mongo_query with
  | None => Err ValueError
  | Some c =>
      let collection := gr c 1 in
      let query_params := strip (gr c 2) in
      let params := split_respecting_brackets query_params in
      let query_filter_str := match params with p :: _ => p | [] => "{}" end in
      let projection_str := match params with _ :: p :: _ => p | _ => "{}" end in
      reraise_value (
        let* query_filter := safe_eval query_filter_str in
        let* projection := safe_eval projection_str in
        let* sort_clause :=
          match group c 3 with
          | Some s =>
              if String.eqb s "" then Ok [] else
              let* so := safe_eval s in
              match so with PDict kv => Ok kv | _ => Err AttributeError end
          | None => Ok []
          end in
        let* limit_val := opt_int (group c 4) in
        let* skip_val := opt_int (group c 5) in
        Ok (mk_findobj collection query_filter projection sort_clause limit_val skip_val))
  end.

Definition handle_find (mongo_query : string) : res string :=
  let* o := handle_find_parse mongo_query in
  reraise_value (mongo_find_to_sql o).

(** *** [_handle_delete] *)

(** [delete_pattern] *)
Definition delete_pattern : rx :=
  seq [lit "db."; RGroup 1 (plus true word); lit ".delete";
       opt (RAlt (lit "One") (lit "Many")); lit "(";
       RGroup 2 (RStar false dot);
       opt (seq [lit ","; RStar true space;
                 RGroup 3 (seq [lit "{"; RStar false dot; lit "}"])]);
       lit ")"].

Record delobj : Type := mk_delobj {
  d_collection : string;
  d_filter : pyval;
  d_one : bool
}.

(** the parsing half of [_handle_delete] *)
Definition delete_parse (mongo_query : string) : res delobj :=
  match search delete_pattern mongo_query with
  | None => Err ValueError
  | Some c =>
      let options_str := match group c 3 with
                         | Some s => if String.eqb s "" then "{}" else s
                         | None => "{}" end in
      let* filter_obj := safe_eval (gr c 2) in
      let* _ := safe_eval options_str in
      Ok (mk_delobj (gr c 1) filter_obj (contains "deleteOne" mongo_query))
  end.

(** the rendering half of [_handle_delete] *)
Definition delete_render (d : delobj) : res string :=
  let* where_clause := build_where_sql (d_filter d) in
  Ok ("DELETE FROM " ++ d_collection d ++
      (if String.eqb where_clause "" then "" else " WHERE " ++ where_clause) ++
      (if d_one d then " LIMIT 1" else "") ++ ";").

Definition handle_delete (mongo_query : string) : res string :=
  let* d := delete_parse mongo_query in delete_render d.

(** *** [_handle_insert] *)

(** [insert_pattern] *)
Definition insert_pattern : rx :=
  seq [lit "db."; RGroup 1 (plus true word); lit ".insert";
       opt (RAlt (lit "One") (lit "Many")); lit "(";
       RGroup 2 (RStar true dot); lit ")"].

Definition insert_cell (val : pyval) : string :=
  if is_number val then py_str val else "'" ++ escape_quotes (py_str val) ++ "'".

Definition doc_keys (doc : pyval) : res (list string) :=
  match doc with PDict kv => Ok (keys kv) | _ => Err AttributeError end.

Section Insert.
(** The iteration order of the [set] [all_fields], as a function of the keys
    added to it (in the order they were added). CPython orders a set of
    strings by their hashes, which are salted per process. *)
Variable set_iter : list string -> list string.

Definition insert_row (all_fields : list string) (doc : pyval) : res string :=
  match doc with
  | PDict kv =>
      Ok ("(" ++ join ", " (map (fun field => match lookup field kv with
                                             | Some v => insert_cell v
                                             | None => "NULL" end) all_fields) ++ ")")
  | _ => Err AttributeError
  end.

(** the rendering half of [_handle_insert], from the decoded documents on *)
Definition insert_to_sql (collection : string) (docs : pyval) : res string :=
  let docs := match docs with PDict _ => PList [docs] | _ => docs end in
  if negb (truthy docs) then Err ValueError else
  let* dl := py_iter docs in
  let* keyss := map_res doc_keys dl in
  let all_fields := set_iter (concat keyss) in
  let* rows := map_res (insert_row all_fields) dl in
  Ok ("INSERT INTO " ++ collection ++ " (" ++ join ", " all_fields ++ ") VALUES " ++
      join ", " rows ++ ";").

Definition handle_insert (mongo_query : string) : res string :=
  match search insert_pattern mongo_query with
  | None => Err ValueError
  | Some c =>
      let* docs := safe_eval (gr c 2) in
      insert_to_sql (gr c 1) docs
  end.

(** *** [convert] *)
Variables handle_update handle_aggregate : string -> res string.

Definition convert (mongo_query : string) : res string :=
  let mongo_query := strip mongo_query in
  let op_kind (r : rx) := match search r mongo_query with Some _ => true | None => false end in
  if op_kind (lit ".find(") then handle_find mongo_query
  else if op_kind (seq [lit ".insert"; opt (RAlt (lit "One") (lit "Many")); lit "("]) then handle_insert mongo_query
  else if op_kind (seq [lit ".update"; opt (RAlt (lit "One") (lit "Many")); lit "("]) then handle_update mongo_query
  else if op_kind (seq [lit ".delete"; opt (RAlt (lit "One") (lit "Many")); lit "("]) then handle_delete mongo_query
  else if op_kind (lit ".aggregate(") then handle_aggregate mongo_query
  else Err ValueError.
End Insert.

End MongoToSql.

(** ** Vocabulary of the properties *)
Module Vocab.
Import PyStr PyNum PyVal Rx SqlToMongo MongoToSql.

(** every character of [s] satisfies [p] *)
Fixpoint all_chars (p : ascii -> bool) (s : string) : bool :=
  match s with
  | EmptyString => true
  | String c s' => p c && all_chars p s'
  end.

Definition no_space (s : string) : bool := all_chars (fun c => negb (is_space c)) s.

(** The failure kinds of the specification, and the Python exception each
    one corresponds to. *)
Inductive spec_err : Type := SpecSyntaxError | ValidationError | UnsupportedOperation.

Definition spec_kind (e : exc) : spec_err :=
  match e with
  | SyntaxError => SpecSyntaxError
  | NotImplementedError => UnsupportedOperation
  | ValueError | TypeError | AttributeError => ValidationError
  end.

(** Equality of decoded values, for the meaning of MongoDB's [$in]. *)
Fixpoint pyval_eqb (a b : pyval) : bool :=
  match a, b with
  | PNone, PNone => true
  | PBool x, PBool y => Bool.eqb x y
  | PInt x, PInt y => Z.eqb x y
  | PFloat x, PFloat y => String.eqb x y
  | PStr x, PStr y => String.eqb x y
  | PList xs, PList ys =>
      (fix go (xs ys : list pyval) : bool :=
         match xs, ys with
         | [], [] => true
         | x :: xs', y :: ys' => pyval_eqb x y && go xs' ys'
         | _, _ => false
         end) xs ys
  | PDict xs, PDict ys =>
      (fix go (xs ys : list (string * pyval)) : bool :=
         match xs, ys with
         | [], [] => true
         | (k, x) :: xs', (k', y) :: ys' => String.eqb k k' && pyval_eqb x y && go xs' ys'
         | _, _ => false
         end) xs ys
  | _, _ => false
  end.

(** The meaning of [{ f: { $in: l } }] and [{ f: { $nin: l } }] on a document,
    after MongoDB's query operators: [$in] holds when the field's value (a
    missing field counting as [null]) equals an element of [l]; [$nin] is its
    negation. *)
Definition mongo_in_holds (doc : list (string * pyval)) (f : string) (l : list pyval) : bool :=
  let v := match lookup f doc with Some v => v | None => PNone end in
  existsb (pyval_eqb v) l.
Definition mongo_nin_holds (doc : list (string * pyval)) (f : string) (l : list pyval) : bool :=
  negb (mongo_in_holds doc f l).

(** The top-level tokens [sqlparse] builds for
    [SELECT name, age FROM users WHERE age > 30;]: the DML keyword, the
    identifier list, the FROM keyword, the table identifier and the WHERE
    group (which runs to the end of the statement, semicolon included). *)
Definition c1_sql : string := "SELECT name, age FROM users WHERE age > 30;".
Definition c1_stmt : statement :=
  [Leaf TDML "SELECT"; Leaf TWS " "; IdentifierList ["name"; "age"] "name, age";
   Leaf TWS " "; Leaf TKeyword "FROM"; Leaf TWS " "; Identifier "users";
   Leaf TWS " "; Where "WHERE age > 30;"].

(** a handler that is never reached *)
Definition unused {A B} : A -> res B := fun _ => Err ValueError.
Definition unused2 {A B C} : A -> B -> res C := fun _ _ => Err ValueError.

(** the comparison keywords the WHERE parser turns into MongoDB operators *)
Definition cmp_ops : list (string * string) :=
  [(">", "$gt"); ("<", "$lt"); (">=", "$gte"); ("<=", "$lte")].

(** The find query of the round-trip property: collection [coll], empty
    filter, no projection, no sort, the given limit and skip. *)
Definition c3_query (coll : string) (l s : option Z) : mquery :=
  mk_mquery coll [] None [] l s None.

(** the character before the position reached after reading [w] from a
    position whose previous character is [p] *)
Fixpoint last_or (p : option ascii) (w : string) : option ascii :=
  match w with
  | EmptyString => p
  | String a w' => last_or (Some a) w'
  end.

(** the decimal value of a digit string read after [acc] *)
Fixpoint dval (acc : N) (s : string) : N :=
  match s with
  | EmptyString => acc
  | String c s' => dval (10 * acc + digit_val c)%N s'
  end.

(** the three optional parts of [find_pattern] after [.find(...)] *)
Definition opt_tail : rx :=
  seq [opt (seq [lit ".sort("; RGroup 3 (RStar false anychar); lit ")"]);
       opt (seq [lit ".limit("; RGroup 4 (plus true digit); lit ")"]);
       opt (seq [lit ".skip("; RGroup 5 (plus true digit); lit ")"])].

End Vocab.

(** ** Bracket helpers of [mongo_to_sql.py] *)
Module Brackets.
Import PyStr PyNum PyVal.

(** [text[i]] with Python's negative indices; [None] where Python raises
    [IndexError]. *)
Definition char_at (text : string) (i : Z) : option ascii :=
  let n := Z.of_nat (String.length text) in
  let j := if (i <? 0)%Z then (i + n)%Z else i in
  if ((j <? 0) || (n <=? j))%Z then None else String.get (Z.to_nat j) text.

(** [{'(': ')', '{': '}', '[': ']'}[open_char]] *)
Definition close_of (c : ascii) : ascii :=
  if Ascii.eqb c "(" then ")" else if Ascii.eqb c "{" then "}" else "]".

(** The [for i in range(open_pos + 1, len(text))] loop of
    [_find_matching_bracket]. *)
Fixpoint fmb_loop (text : string) (oc cc : ascii) (stack i : Z) (fuel : nat)
  : option Z :=
  match fuel with
  | O => Some (-1)%Z
  | S f =>
      match char_at text i with
      | None => None
      | Some ch =>
          if Ascii.eqb ch oc then fmb_loop text oc cc (stack + 1) (i + 1) f
          else if Ascii.eqb ch cc then
            let stack := (stack - 1)%Z in
            if (stack =? 0)%Z then Some i
            else fmb_loop text oc cc stack (i + 1) f
          else fmb_loop text oc cc stack (i + 1) f
      end
  end.

(** [_find_matching_bracket]; [None] is the [IndexError] of
    [text[open_pos]] for [open_pos < -len(text)]. *)
Definition find_matching_bracket (text : string) (open_pos : Z) : option Z :=
  let n := Z.of_nat (String.length text) in
  if (n <=? open_pos)%Z then Some (-1)%Z else
  match char_at text open_pos with
  | None => None
  | Some oc =>
      if negb (mem_char oc "({[") then Some (-1)%Z else
      fmb_loop text oc (close_of oc) 1 (open_pos + 1)
        (Z.to_nat (n - (open_pos + 1)))
  end.

(** [brackets.get(c, None)] of [_extract_balanced_json], for the opening
    characters pushed on the stack. *)
Definition bracket_get (c : ascii) : option ascii :=
  if Ascii.eqb c "(" then Some ")"%char
  else if Ascii.eqb c "[" then Some "]"%char
  else if Ascii.eqb c "{" then Some "}"%char else None.

(** The [for i, char in enumerate(js_str)] loop of [_extract_balanced_json]:
    [rest] is the text from index [i] on, [stack] is kept top first. *)
Fixpoint ebj_loop (js : string) (rest : string) (i : nat) (stack : list ascii)
  : string :=
  match rest with
  | EmptyString => js
  | String ch rest' =>
      if mem_char ch "([{" then ebj_loop js rest' (S i) (ch :: stack)
      else if mem_char ch ")]}" then
        match stack with
        | [] => js
        | top :: stack' =>
            if negb (match bracket_get top with
                     | Some d => Ascii.eqb ch d | None => false end)
            then js
            else match stack' with
                 | [] => if (0 <? i)%nat then substring 0 (S i) js
                         else ebj_loop js rest' (S i) stack'
                 | _ => ebj_loop js rest' (S i) stack'
                 end
        end
      else ebj_loop js rest' (S i) stack
  end.

(** [_extract_balanced_json] *)
Definition extract_balanced_json (js : string) : string := ebj_loop js js 0 [].

(** Vocabulary for the properties: the opening and closing brackets of a
    text, counted together. *)
Definition opens (s : string) : nat :=
  count_char "(" s + count_char "[" s + count_char "{" s.
Definition closes (s : string) : nat :=
  count_char ")" s + count_char "]" s + count_char "}" s.

(** How many more [oc] than [close_of oc] the text [text[p:j+1]] holds. *)
Definition bracket_depth (text : string) (oc : ascii) (p j : nat) : Z :=
  let seg := substring p (S j - p) text in
  (Z.of_nat (count_char oc seg) - Z.of_nat (count_char (close_of oc) seg))%Z.

End Brackets.

(** ** The UPDATE and DELETE handlers of [sql_to_mongo.py] *)
Module SqlDml.
Import PyStr PyNum PyVal Rx SqlToMongo.

(** [$] (without MULTILINE): the end of the text, or a final newline *)
Definition dollar : kont := fun p s c =>
  match s with
  | EmptyString => Some (p, s, c)
  | String n EmptyString => if Ascii.eqb n (ascii_of_nat 10) then Some (p, s, c) else None
  | _ => None
  end.

(** [re.search] of a pattern whose last item is [$] *)
Fixpoint search_end_from (r : rx) (p : option ascii) (s : string) : option caps :=
  match mt r p s [] dollar with
  | Some (_, _, c) => Some c
  | None =>
      match s with
      | EmptyString => None
      | String b s' => search_end_from r (Some b) s'
      end
  end.
Definition search_end (r : rx) (s : string) : option caps := search_end_from r None s.

(** [(?:\s+WHERE\s+(.+?))?], the WHERE text in group [n] *)
Definition where_part (n : nat) : rx :=
  opt (seq [plus true space; litI "WHERE"; plus true space; RGroup n (plus false anychar)]).

(** [(?:\s*;)?] *)
Definition semi_tail : rx := opt (seq [RStar true space; lit ";"]).

(** [UPDATE\s+(\w+)\s+SET\s+(.+?)(?:\s+WHERE\s+(.+?))?(?:\s*;)?$], IGNORECASE | DOTALL *)
Definition update_pattern : rx :=
  seq [litI "UPDATE"; plus true space; RGroup 1 (plus true word); plus true space;
       litI "SET"; plus true space; RGroup 2 (plus false anychar); where_part 3; semi_tail].

(** [DELETE\s+FROM\s+(\w+)(?:\s+WHERE\s+(.+?))?(?:\s*;)?$], IGNORECASE | DOTALL *)
Definition sql_delete_pattern : rx :=
  seq [litI "DELETE"; plus true space; litI "FROM"; plus true space; RGroup 1 (plus true word);
       where_part 2; semi_tail].

(** [item.split('=', 1)] of an item that contains ['='] *)
Fixpoint split_once (c : ascii) (s : string) : string * string :=
  match s with
  | EmptyString => ("", "")
  | String d s' =>
      if Ascii.eqb d c then ("", s')
      else let (a, b) := split_once c s' in (String d a, b)
  end.

(** the loop over [set_clause.split(',')] that fills [set_items] *)
Fixpoint set_items_loop (items : list string) (set_items : list (string * pyval))
  : res (list (string * pyval)) :=
  match items with
  | [] => Ok set_items
  | item :: rest =>
      if negb (contains "=" item) then Err SyntaxError
      else
        let (field, value) := split_once "=" item in
        set_items_loop rest (dict_set (strip field) (parse_sql_value (strip value)) set_items)
  end.

(** [if where_clause: filter_query = parse_where_conditions(where_clause)] *)
Definition where_filter (w : option string) : list (string * pyval) :=
  match w with
  | Some w => if String.eqb w "" then [] else parse_where_conditions w
  | None => []
  end.

(** [_handle_update]; the parsed statement is not used *)
Definition handle_update (statement : statement) (sql_query : string) : res string :=
  match search_end update_pattern sql_query with
  | None => Err SyntaxError
  | Some m =>
      let table_name := MongoToSql.gr m 1 in
      let set_clause := strip (MongoToSql.gr m 2) in
      let* set_items := set_items_loop (split "," set_clause) [] in
      let filter_query := where_filter (group m 3) in
      Ok ("db." ++ table_name ++ ".updateMany(" ++ format_json (PDict filter_query)
          ++ ", {'$set': " ++ format_json (PDict set_items) ++ "})")
  end.

(** [_handle_delete]; the parsed statement is not used *)
Definition sql_handle_delete (statement : statement) (sql_query : string) : res string :=
  match search_end sql_delete_pattern sql_query with
  | None => Err SyntaxError
  | Some m =>
      let table_name := MongoToSql.gr m 1 in
      let filter_query := where_filter (group m 2) in
      let delete_command :=
        match filter_query with
        | [] => "deleteMany"
        | _ => match lookup "_id" filter_query with
               | Some _ => "deleteOne"
               | None => "deleteMany"
               end
        end in
      Ok ("db." ++ table_name ++ "." ++ delete_command ++ "(" ++ format_json (PDict filter_query) ++ ")")
  end.
(** characters that are neither [;] nor a newline *)
Definition no_semi_nl (b : ascii) : bool :=
  negb (Ascii.eqb b ";") && negb (Ascii.eqb b (ascii_of_nat 10)).
(** characters that are neither whitespace nor [;] *)
Definition no_space_semi (b : ascii) : bool := negb (is_space b) && negb (Ascii.eqb b ";").
End SqlDml.

(** * Properties *)

(** ** Facts about the string functions *)
Module StrFacts.
Import PyStr Vocab.

Lemma sapp_assoc (a b c : string) : (a ++ b) ++ c = a ++ (b ++ c).
Proof. induction a as [|x a IH]; simpl; [reflexivity | now rewrite IH]. Qed.

Lemma sapp_nil_r (a : string) : a ++ "" = a.
Proof. induction a as [|x a IH]; simpl; [reflexivity | now rewrite IH]. Qed.

Lemma length_sapp (a b : string) : String.length (a ++ b) = String.length a + String.length b.
Proof. induction a as [|x a IH]; simpl; [reflexivity | now rewrite IH]. Qed.

Lemma rev_str_app (a b : string) : rev_str (a ++ b) = rev_str b ++ rev_str a.
Proof.
  induction a as [|x a IH]; simpl.
  - now rewrite sapp_nil_r.
  - now rewrite IH, sapp_assoc.
Qed.

Lemma substring_prefix (a b : string) : substring 0 (String.length a) (a ++ b) = a.
Proof. induction a as [|x a IH]; simpl; [destruct b; reflexivity | now rewrite IH]. Qed.

Lemma sapp_cons_neq_empty (a b : string) (c : ascii) : a ++ String c b <> "".
Proof. destruct a; discriminate. Qed.

Lemma exists_last_char (v : string) : v <> "" -> exists v0 c, v = v0 ++ String c "".
Proof.
  induction v as [|x v IH]; intro H; [contradiction|].
  destruct v as [|y v'].
  - exists "", x. reflexivity.
  - destruct IH as [v0 [c E]]; [discriminate|].
    exists (String x v0), c. simpl. now rewrite E.
Qed.

Lemma endswith_last (v0 : string) (c d : ascii) :
  endswith (String d "") (v0 ++ String c "") = Ascii.eqb d c.
Proof.
  unfold endswith. rewrite rev_str_app. simpl. now rewrite andb_true_r.
Qed.

(** [rstrip] keeps what precedes a suffix it keeps *)
Lemma rstrip_app_keep (p : ascii -> bool) (a t : string) :
  rstrip_by p t = t -> t <> "" -> rstrip_by p (a ++ t) = a ++ t.
Proof.
  intros Ht Hne. induction a as [|x a IH]; simpl; [exact Ht|].
  rewrite IH. destruct (String.eqb_spec (a ++ t) "") as [E|_].
  - exfalso. destruct a; simpl in E; [contradiction | discriminate].
  - reflexivity.
Qed.

Lemma rstrip_all_keep (p : ascii -> bool) (s : string) :
  all_chars (fun c => negb (p c)) s = true -> rstrip_by p s = s.
Proof.
  induction s as [|x s IH]; simpl; intro H; [reflexivity|].
  apply andb_prop in H as [Hx Hs]. rewrite IH by exact Hs.
  destruct (p x); [discriminate Hx|]. destruct (String.eqb s ""); reflexivity.
Qed.

Lemma rstrip_last_keep (p : ascii -> bool) (v0 : string) (c : ascii) :
  p c = false -> rstrip_by p (v0 ++ String c "") = v0 ++ String c "".
Proof.
  intro Hc. apply rstrip_app_keep; [|discriminate].
  simpl. rewrite Hc. reflexivity.
Qed.

Lemma no_space_head (c : ascii) (s : string) :
  no_space (String c s) = true -> is_space c = false /\ no_space s = true.
Proof.
  unfold no_space; simpl. intro H. apply andb_prop in H as [H1 H2].
  split; [now destruct (is_space c) | exact H2].
Qed.

Lemma lstrip_keep (a r : string) :
  a <> "" -> no_space a = true -> lstrip_by is_space (a ++ r) = a ++ r.
Proof.
  intros Hne Hs. destruct a as [|c a]; [contradiction|].
  apply no_space_head in Hs as [Hc _]. simpl. now rewrite Hc.
Qed.

Lemma space_neq (c : ascii) : is_space c = false -> Ascii.eqb " " c = false.
Proof.
  intro H. destruct (Ascii.eqb_spec " " c) as [E|_]; [subst c; discriminate H | reflexivity].
Qed.

(** a separator starting with a space never starts inside a word *)
Lemma startswith_cons (x y : ascii) (p s : string) :
  startswith (String x p) (String y s) = Ascii.eqb x y && startswith p s.
Proof. reflexivity. Qed.

Lemma contains_cons (sub s : string) (c : ascii) :
  contains sub (String c s) = startswith sub (String c s) || contains sub s.
Proof. reflexivity. Qed.

Lemma contains_skip_word (sep' a r : string) :
  no_space a = true -> contains (String " " sep') (a ++ r) = contains (String " " sep') r.
Proof.
  induction a as [|c a IH]; intro H; [reflexivity|].
  apply no_space_head in H as [Hc Ha].
  change (String c a ++ r) with (String c (a ++ r)).
  rewrite contains_cons, startswith_cons, (space_neq c Hc). exact (IH Ha).
Qed.

Lemma contains_empty (c : ascii) (sep : string) : contains (String c sep) "" = false.
Proof. reflexivity. Qed.

Lemma startswith_no_space (sep s : string) :
  no_space s = true -> startswith sep s = true -> no_space sep = true.
Proof.
  revert s. induction sep as [|c sep IH]; intros s Hs Hp; [reflexivity|].
  destruct s as [|d s]; [discriminate Hp|].
  rewrite startswith_cons in Hp. apply andb_prop in Hp as [E Hp]. apply Ascii.eqb_eq in E. subst d.
  apply no_space_head in Hs as [Hc Hs].
  unfold no_space; simpl. rewrite Hc. simpl. exact (IH s Hs Hp).
Qed.

Lemma split_no_sep (sep s : string) (fuel : nat) :
  contains sep s = false -> split_fuel fuel sep s = [s].
Proof.
  revert s. induction fuel as [|f IH]; intros s H; [reflexivity|].
  destruct s as [|c s]; [reflexivity|].
  rewrite contains_cons in H. apply orb_false_elim in H as [H1 H2].
  cbn [split_fuel]. rewrite H1, (IH s H2). reflexivity.
Qed.

Lemma take_word_app (a r : string) (c : ascii) :
  no_space a = true -> is_space c = true -> take_word (a ++ String c r) = (a, String c r).
Proof.
  intros Ha Hc. induction a as [|x a IH]; simpl.
  - now rewrite Hc.
  - apply no_space_head in Ha as [Hx Ha]. rewrite Hx, (IH Ha). reflexivity.
Qed.

End StrFacts.

(** ** SELECT and its rendering *)
Module SelectProps.
Import PyStr PyVal SqlToMongo Vocab.

(** C1: for the query [SELECT name, age FROM users WHERE age > 30;], the
    parsed filter maps [age] to [{$gt: 30}] (the integer 30), the parsed
    columns are [name] and [age], and the whole translation returns
    [db.users.find({ age: { $gt: 30 } }, { name: 1, age: 1 })]: the
    collection is prefixed with [db.]. *)
Theorem c1_select_db_find :
  forall (handle_join : string -> res string)
         (handle_insert handle_update handle_delete : statement -> string -> res string)
         (sqlparse_parse : string -> list statement),
  sqlparse_parse c1_sql = [c1_stmt] ->
  s_where (parse_select_statement c1_stmt) = [("age", PDict [("$gt", PInt 30)])] /\
  s_cols (parse_select_statement c1_stmt) = ["name"; "age"] /\
  sql_to_mongo handle_join handle_insert handle_update handle_delete sqlparse_parse c1_sql =
    Ok "db.users.find({ age: { $gt: 30 } }, { name: 1, age: 1 })".
Proof.
  intros hj hi hu hd parse Hparse.
  split; [vm_compute; reflexivity|].
  split; [vm_compute; reflexivity|].
  unfold sql_to_mongo. rewrite Hparse.
  vm_compute. reflexivity.
Qed.

Lemma c1_select_db_find_witness :
  s_where (parse_select_statement c1_stmt) = [("age", PDict [("$gt", PInt 30)])] /\
  s_cols (parse_select_statement c1_stmt) = ["name"; "age"] /\
  sql_to_mongo unused unused2 unused2 unused2 (fun _ => [c1_stmt]) c1_sql =
    Ok "db.users.find({ age: { $gt: 30 } }, { name: 1, age: 1 })".
Proof.
  apply (c1_select_db_find unused unused2 unused2 unused2 (fun _ => [c1_stmt])).
  reflexivity.
Defined.

(** C1 (counterexample): the translation of the same query is not the text
    [users.find({ age: { $gt: 30 } }, { name: 1, age: 1 })]. *)
Lemma c1_no_db_prefix_cex :
  sql_to_mongo unused unused2 unused2 unused2 (fun _ => [c1_stmt]) c1_sql <>
    Ok "users.find({ age: { $gt: 30 } }, { name: 1, age: 1 })".
Proof. vm_compute. intro H. discriminate H. Qed.

End SelectProps.

(** ** Mongo shell to SQL *)
Module MongoProps.
Import PyStr PyVal MongoToSql Vocab StrFacts.

(** the delete command of C9, [db.users.deleteOne({"_id": 1})] *)
Definition c9_query : string := "db.users.deleteOne({" ++ dq ++ "_id" ++ dq ++ ": 1})".

(** C9: [db.users.deleteOne({"_id": 1})] parses to a delete on [users] with
    filter [{_id: 1}] that affects one document, and renders (alone and
    through [convert]) to [DELETE FROM users WHERE _id = 1 LIMIT 1;]. *)
Theorem c9_delete_one :
  forall (set_iter : list string -> list string) (handle_update handle_aggregate : string -> res string),
  delete_parse c9_query = Ok (mk_delobj "users" (PDict [("_id", PInt 1)]) true) /\
  delete_render (mk_delobj "users" (PDict [("_id", PInt 1)]) true) =
    Ok "DELETE FROM users WHERE _id = 1 LIMIT 1;" /\
  convert set_iter handle_update handle_aggregate c9_query =
    Ok "DELETE FROM users WHERE _id = 1 LIMIT 1;".
Proof.
  intros set_iter hu ha.
  split; [vm_compute; reflexivity|].
  split; [vm_compute; reflexivity|].
  vm_compute. reflexivity.
Qed.

(** C10: in [db.users.find({'name': 'untrue'})] the object literal is not
    JSON, so it goes to the [ast.literal_eval] fallback, whose rewriting of
    [true] into [True] reaches inside the quoted value: the parsed filter
    maps [name] to [unTrue], not to the [untrue] written in the query, and
    the SQL compares with ['unTrue']. *)
Theorem c10_untrue_rewritten :
  forall (set_iter : list string -> list string) (handle_update handle_aggregate : string -> res string),
  json_loads (normalize "{'name': 'untrue'}") = None /\
  handle_find_parse "db.users.find({'name': 'untrue'})" =
    Ok (mk_findobj "users" (PDict [("name", PStr "unTrue")]) (PDict []) [] None None) /\
  "unTrue" <> "untrue" /\
  convert set_iter handle_update handle_aggregate "db.users.find({'name': 'untrue'})" =
    Ok "SELECT * FROM users WHERE name = 'unTrue';".
Proof.
  intros set_iter hu ha.
  split; [vm_compute; reflexivity|].
  split; [vm_compute; reflexivity|].
  split; [discriminate|].
  vm_compute. reflexivity.
Qed.

(** the unbalanced literal [{"a": 1] of C7 *)
Definition c7_text : string := "{" ++ dq ++ "a" ++ dq ++ ": 1".

(** C7: [_parse_mongo_json] has no repair step. Whatever the two decoders,
    it fails only with [ValueError], and it fails exactly when the stripped
    text is neither empty nor [{}] and both [json.loads] (on the normalised
    text) and [ast.literal_eval] (on it after the keyword rewriting) fail. *)
Theorem c7_no_repair_value_error :
  forall (json_loads literal_eval : string -> option pyval) (s : string),
  (forall e, parse_mongo_json json_loads literal_eval s = Err e -> e = ValueError) /\
  (parse_mongo_json json_loads literal_eval s = Err ValueError <->
     strip s <> "" /\ strip s <> "{}" /\
     json_loads (normalize (strip s)) = None /\
     literal_eval (py_keywords (normalize (strip s))) = None).
Proof.
  intros jl le s. unfold parse_mongo_json.
  destruct (String.eqb_spec (strip s) "") as [E|E]; simpl.
  { split; [intros e H; discriminate H|]. split; [intro H; discriminate H|]. intros [H _]. contradiction. }
  destruct (String.eqb_spec (strip s) "{}") as [F|F]; simpl.
  { split; [intros e H; discriminate H|]. split; [intro H; discriminate H|]. intros [_ [H _]]. contradiction. }
  destruct (jl (normalize (strip s))) as [v|] eqn:J.
  { split; [intros e H; discriminate H|]. split; [intro H; discriminate H|]. intros [_ [_ [H _]]]. discriminate H. }
  destruct (le (py_keywords (normalize (strip s)))) as [v|] eqn:L.
  { split; [intros e H; discriminate H|]. split; [intro H; discriminate H|]. intros [_ [_ [_ H]]]. discriminate H. }
  split; [intros e H; injection H; auto|]. tauto.
Qed.

(** C7 (counterexample): on [{"a": 1] the parser fails with [ValueError],
    whose kind is not the specification's [SyntaxError], while the bracket
    repair [_balance_brackets] would have produced a decodable text. *)
Lemma c7_unrepaired_cex :
  safe_eval c7_text = Err ValueError /\
  spec_kind ValueError <> SpecSyntaxError /\
  json_loads (balance_brackets c7_text) = Some (PDict [("a", PInt 1)]).
Proof.
  split; [vm_compute; reflexivity|].
  split; [discriminate|].
  vm_compute. reflexivity.
Qed.

End MongoProps.

(** ** Statement kinds the SQL side refuses *)
Module StatementProps.
Import PyStr SqlToMongo Vocab.

(** C8: when [sqlparse] splits the input into a single statement whose type
    (upper-cased) is none of SELECT, INSERT, UPDATE, DELETE, the translation
    fails with [NotImplementedError], the specification's
    [UnsupportedOperation], whatever the four handlers do. *)
Theorem c8_unsupported_statement :
  forall (handle_join : string -> res string)
         (handle_insert handle_update handle_delete : statement -> string -> res string)
         (sqlparse_parse : string -> list statement) (sql : string) (stmt : statement),
  sqlparse_parse sql = [stmt] ->
  ~ In (upper (get_type stmt)) ["SELECT"; "INSERT"; "UPDATE"; "DELETE"] ->
  sql_to_mongo handle_join handle_insert handle_update handle_delete sqlparse_parse sql =
    Err NotImplementedError /\
  spec_kind NotImplementedError = UnsupportedOperation.
Proof.
  intros hj hi hu hd parse sql stmt Hparse Hty.
  split; [|reflexivity].
  unfold sql_to_mongo. rewrite Hparse.
  destruct (String.eqb_spec (upper (get_type stmt)) "SELECT") as [E|_];
    [exfalso; apply Hty; rewrite E; simpl; tauto|].
  destruct (String.eqb_spec (upper (get_type stmt)) "INSERT") as [E|_];
    [exfalso; apply Hty; rewrite E; simpl; tauto|].
  destruct (String.eqb_spec (upper (get_type stmt)) "UPDATE") as [E|_];
    [exfalso; apply Hty; rewrite E; simpl; tauto|].
  destruct (String.eqb_spec (upper (get_type stmt)) "DELETE") as [E|_];
    [exfalso; apply Hty; rewrite E; simpl; tauto|].
  reflexivity.
Qed.

(** the tokens of [CREATE TABLE t (a INT)] *)
Definition create_stmt : statement :=
  [Leaf TDDL "CREATE"; Leaf TWS " "; Leaf TKeyword "TABLE"; Leaf TWS " ";
   Identifier "t (a INT)"].

Lemma c8_unsupported_statement_witness :
  sql_to_mongo unused unused2 unused2 unused2 (fun _ => [create_stmt]) "CREATE TABLE t (a INT)" =
    Err NotImplementedError /\
  spec_kind NotImplementedError = UnsupportedOperation.
Proof.
  apply (c8_unsupported_statement unused unused2 unused2 unused2 (fun _ => [create_stmt])
           "CREATE TABLE t (a INT)" create_stmt).
  - reflexivity.
  - vm_compute. intros [H|[H|[H|[H|[]]]]]; discriminate H.
Defined.

End StatementProps.

(** ** WHERE clauses built from MongoDB filters *)
Module WhereProps.
Import PyStr PyVal MongoToSql Vocab StrFacts.

(** the filter [{field: {op: v}}] goes through [_build_basic_conditions]
    unless the field is [$and] or [$or] *)
Lemma where_single_op (field op : string) (v : pyval) (clause : string) :
  field <> "$and" -> field <> "$or" ->
  convert_operator field op v = Ok clause -> clause <> "" ->
  build_where_sql (PDict [(field, PDict [(op, v)])]) = Ok clause.
Proof.
  intros Ha Ho Hc Hne.
  assert (Ea : String.eqb "$and" field = false) by (apply String.eqb_neq; congruence).
  assert (Eo : String.eqb "$or" field = false) by (apply String.eqb_neq; congruence).
  unfold build_where_sql. cbn [depth where_sql_fuel truthy lookup].
  rewrite Ea, Eo. unfold build_basic_conditions. cbn [map_res basic_clause].
  rewrite Hc. cbn [bind filter concat].
  destruct (String.eqb_spec clause "") as [E|_]; [contradiction|]. reflexivity.
Qed.

Lemma convert_regex (field p : string) :
  convert_operator field "$regex" (PStr p) =
    if startswith "^" p then Ok (field ++ " LIKE '" ++ escape_quotes (drop 1 p) ++ "%'")
    else if endswith "$" p then Ok (field ++ " LIKE '%" ++ escape_quotes (drop_last p) ++ "'")
    else Ok (field ++ " LIKE '%" ++ escape_quotes p ++ "%'").
Proof. reflexivity. Qed.

(** C5: the filter [{field: {$regex: p}}] becomes a LIKE condition: a
    leading caret is removed and gives a prefix pattern ['q%'], otherwise a
    trailing dollar is removed and gives a suffix pattern ['%q'], otherwise
    the pattern is contained (['%p%']); single quotes of the pattern are
    doubled. This holds for every field other than the operators [$and] and
    [$or]. *)
Theorem c5_regex_like (field : string) :
  field <> "$and" -> field <> "$or" ->
  (forall q, build_where_sql (PDict [(field, PDict [("$regex", PStr (String "^" q))])]) =
               Ok (field ++ " LIKE '" ++ escape_quotes q ++ "%'")) /\
  (forall q, startswith "^" q = false ->
             build_where_sql (PDict [(field, PDict [("$regex", PStr (q ++ "$"))])]) =
               Ok (field ++ " LIKE '%" ++ escape_quotes q ++ "'")) /\
  (forall p, startswith "^" p = false -> endswith "$" p = false ->
             build_where_sql (PDict [(field, PDict [("$regex", PStr p)])]) =
               Ok (field ++ " LIKE '%" ++ escape_quotes p ++ "%'")).
Proof.
  intros Ha Ho. split; [|split].
  - intro q. apply where_single_op; [exact Ha | exact Ho | | apply sapp_cons_neq_empty].
    rewrite convert_regex. reflexivity.
  - intros q Hq. apply where_single_op; [exact Ha | exact Ho | | apply sapp_cons_neq_empty].
    rewrite convert_regex.
    assert (E1 : startswith "^" (q ++ "$") = false) by (destruct q; [reflexivity | exact Hq]).
    assert (E2 : endswith "$" (q ++ "$") = true)
      by (unfold endswith; rewrite rev_str_app; simpl; reflexivity).
    rewrite E1, E2. unfold drop_last, take.
    rewrite length_sapp. simpl String.length.
    replace (String.length q + 1 - 1) with (String.length q) by lia.
    now rewrite substring_prefix.
  - intros p H1 H2. apply where_single_op; [exact Ha | exact Ho | | apply sapp_cons_neq_empty].
    rewrite convert_regex, H1, H2. reflexivity.
Qed.

Lemma c5_regex_like_witness :
  (forall q, build_where_sql (PDict [("name", PDict [("$regex", PStr (String "^" q))])]) =
               Ok ("name" ++ " LIKE '" ++ escape_quotes q ++ "%'")) /\
  (forall q, startswith "^" q = false ->
             build_where_sql (PDict [("name", PDict [("$regex", PStr (q ++ "$"))])]) =
               Ok ("name" ++ " LIKE '%" ++ escape_quotes q ++ "'")) /\
  (forall p, startswith "^" p = false -> endswith "$" p = false ->
             build_where_sql (PDict [("name", PDict [("$regex", PStr p)])]) =
               Ok ("name" ++ " LIKE '%" ++ escape_quotes p ++ "%'")).
Proof. apply (c5_regex_like "name"); discriminate. Defined.

(** C6: an empty [$in] list renders to the SQL predicate [FALSE] and an
    empty [$nin] list to [TRUE]; in MongoDB syntax they render to
    [{ field: { $in: [  ] } }] and [{ field: { $nin: [  ] } }], which hold of
    no document and of every document respectively. This holds for every
    field other than the operators [$and] and [$or]. *)
Theorem c6_empty_in_nin (field : string) :
  field <> "$and" -> field <> "$or" ->
  build_where_sql (PDict [(field, PDict [("$in", PList [])])]) = Ok "FALSE" /\
  build_where_sql (PDict [(field, PDict [("$nin", PList [])])]) = Ok "TRUE" /\
  SqlToMongo.format_json (PDict [(field, PDict [("$in", PList [])])]) =
    "{ " ++ field ++ ": { $in: [  ] } }" /\
  SqlToMongo.format_json (PDict [(field, PDict [("$nin", PList [])])]) =
    "{ " ++ field ++ ": { $nin: [  ] } }" /\
  (forall doc, mongo_in_holds doc field [] = false /\ mongo_nin_holds doc field [] = true).
Proof.
  intros Ha Ho. split; [|split; [|split; [|split]]].
  - apply where_single_op; [exact Ha | exact Ho | reflexivity | discriminate].
  - apply where_single_op; [exact Ha | exact Ho | reflexivity | discriminate].
  - simpl. rewrite sapp_assoc. reflexivity.
  - simpl. rewrite sapp_assoc. reflexivity.
  - intro doc. unfold mongo_nin_holds, mongo_in_holds. simpl. auto.
Qed.

Lemma c6_empty_in_nin_witness :
  build_where_sql (PDict [("tags", PDict [("$in", PList [])])]) = Ok "FALSE" /\
  build_where_sql (PDict [("tags", PDict [("$nin", PList [])])]) = Ok "TRUE" /\
  SqlToMongo.format_json (PDict [("tags", PDict [("$in", PList [])])]) =
    "{ " ++ "tags" ++ ": { $in: [  ] } }" /\
  SqlToMongo.format_json (PDict [("tags", PDict [("$nin", PList [])])]) =
    "{ " ++ "tags" ++ ": { $nin: [  ] } }" /\
  (forall doc, mongo_in_holds doc "tags" [] = false /\ mongo_nin_holds doc "tags" [] = true).
Proof. apply (c6_empty_in_nin "tags"); discriminate. Defined.

End WhereProps.

(** ** WHERE clauses of the SQL side *)
Module SqlWhereProps.
Import PyStr PyNum PyVal SqlToMongo Vocab StrFacts.

Lemma split_ws_S (m : nat) (s s' : string) :
  lstrip s = s' -> s' <> "" ->
  split_ws_max (S m) s = fst (take_word s') :: split_ws_max m (snd (take_word s')).
Proof.
  intros E Hne.
  change (split_ws_max (S m) s) with
    (match lstrip s with
     | EmptyString => []
     | s1 => let (w, r) := take_word s1 in w :: split_ws_max m r
     end).
  rewrite E. destruct s' as [|c s'']; [contradiction|].
  destruct (take_word (String c s'')); reflexivity.
Qed.

Lemma split_ws_O (s s' : string) :
  lstrip s = s' -> s' <> "" -> split_ws_max 0 s = [s'].
Proof.
  intros E Hne.
  change (split_ws_max 0 s) with
    (match lstrip s with EmptyString => [] | s1 => [s1] end).
  rewrite E. destruct s'; [contradiction | reflexivity].
Qed.

(** one conjunct [field op v], with no whitespace inside the three parts,
    gives one entry of the filter *)
Lemma where_one (field op v : string) :
  field <> "" -> no_space field = true ->
  op <> "" -> no_space op = true -> startswith "A" op = false ->
  v <> "" -> no_space v = true -> endswith ";" v = false ->
  parse_where_conditions (field ++ " " ++ op ++ " " ++ v) =
    [(field, where_entry op (strip_chars dq (strip_chars "'" v)))].
Proof.
  intros Hf Hfs Ho Hos HoA Hv Hvs Hvend.
  destruct (exists_last_char v Hv) as [v0 [lc Ev]].
  assert (Hlc : mem_char lc ";" = false).
  { rewrite Ev, endswith_last in Hvend. cbn [mem_char].
    destruct (Ascii.eqb_spec lc ";") as [E|_]; [subst lc; discriminate Hvend | reflexivity]. }
  assert (Rv_sp : rstrip_by is_space v = v) by (apply rstrip_all_keep; exact Hvs).
  assert (Rv_sc : rstrip_by (fun c => mem_char c ";") v = v)
    by (rewrite Ev; apply rstrip_last_keep; exact Hlc).
  assert (Lv : lstrip_by is_space v = v)
    by (pose proof (lstrip_keep v "" Hv Hvs) as H; rewrite sapp_nil_r in H; exact H).
  set (text := field ++ " " ++ op ++ " " ++ v).
  assert (Etext : text = (field ++ " " ++ op ++ " ") ++ v)
    by (unfold text; rewrite !sapp_assoc; reflexivity).
  assert (Estrip : strip text = text).
  { assert (L0 : lstrip_by is_space text = text) by (unfold text; apply lstrip_keep; assumption).
    unfold strip. rewrite L0, Etext. apply rstrip_app_keep; assumption. }
  assert (Erstrip : rstrip_chars ";" text = text).
  { unfold rstrip_chars. rewrite Etext. apply rstrip_app_keep; assumption. }
  assert (Hop : startswith "AND " (op ++ " " ++ v) = false).
  { destruct op as [|o op']; [contradiction|].
    change (startswith "A" (String o op')) with (Ascii.eqb "A" o && true) in HoA.
    rewrite andb_true_r in HoA.
    change (String o op' ++ " " ++ v) with (String o (op' ++ " " ++ v)).
    rewrite startswith_cons, HoA. reflexivity. }
  assert (Hvand : startswith "AND " v = false).
  { destruct (startswith "AND " v) eqn:E; [|reflexivity].
    pose proof (startswith_no_space _ _ Hvs E) as H. discriminate H. }
  assert (Econt : contains " AND " text = false).
  { unfold text. rewrite contains_skip_word by exact Hfs.
    change (" " ++ op ++ " " ++ v) with (String " " (op ++ " " ++ v)).
    rewrite contains_cons, startswith_cons, Hop, andb_false_r. simpl orb.
    rewrite contains_skip_word by exact Hos.
    change (" " ++ v) with (String " " v).
    rewrite contains_cons, startswith_cons, Hvand, andb_false_r. simpl orb.
    rewrite <- (sapp_nil_r v). rewrite contains_skip_word by exact Hvs. reflexivity. }
  assert (Esplit : split_ws_max 2 text = [field; op; v]).
  { assert (L1 : lstrip text = text) by (unfold lstrip, text; apply lstrip_keep; assumption).
    assert (T1 : take_word text = (field, " " ++ op ++ " " ++ v))
      by (apply take_word_app; [exact Hfs | reflexivity]).
    rewrite (split_ws_S 1 text text L1) by (unfold text; destruct field; [contradiction | discriminate]).
    rewrite T1. cbn [fst snd].
    assert (L2 : lstrip (" " ++ op ++ " " ++ v) = op ++ " " ++ v)
      by (change (lstrip (" " ++ op ++ " " ++ v)) with (lstrip (op ++ " " ++ v));
          unfold lstrip; apply lstrip_keep; assumption).
    assert (T2 : take_word (op ++ " " ++ v) = (op, " " ++ v))
      by (apply take_word_app; [exact Hos | reflexivity]).
    rewrite (split_ws_S 0 _ _ L2) by (destruct op; [contradiction | discriminate]).
    rewrite T2. cbn [fst snd].
    assert (L3 : lstrip (" " ++ v) = v)
      by (change (lstrip (" " ++ v)) with (lstrip v); exact Lv).
    rewrite (split_ws_O _ _ L3 Hv). reflexivity. }
  unfold parse_where_conditions. fold text.
  rewrite Estrip, Erstrip.
  assert (Ene : String.eqb text "" = false)
    by (unfold text; destruct field; [contradiction | reflexivity]).
  rewrite Ene. unfold split. rewrite split_no_sep by exact Econt.
  cbn [fold_left]. rewrite Esplit.
  unfold strip. rewrite Lv, Rv_sp. unfold rstrip_chars. rewrite Rv_sc.
  reflexivity.
Qed.

(** C2: WHERE literals are not read with the literal rules of
    [_parse_sql_value]. For a conjunct [field op v] (no whitespace inside
    [field] or [v], [v] not ending in a semicolon), the value is [v] with
    surrounding single and then double quotes removed; with [=] it is kept as
    that string (so [age = 30] maps [age] to the string [30]); with [>], [<],
    [>=], [<=] it goes through [convert_value] (an int, else a float, else
    the string), which never yields [None] or a boolean. *)
Theorem c2_where_literals (field v : string) :
  field <> "" -> no_space field = true ->
  v <> "" -> no_space v = true -> endswith ";" v = false ->
  parse_where_conditions (field ++ " = " ++ v) =
    [(field, PStr (strip_chars dq (strip_chars "'" v)))] /\
  (forall op mop, In (op, mop) cmp_ops ->
     parse_where_conditions (field ++ " " ++ op ++ " " ++ v) =
       [(field, PDict [(mop, convert_value (strip_chars dq (strip_chars "'" v)))])]) /\
  (forall t, match convert_value t with PInt _ | PFloat _ | PStr _ => True | _ => False end).
Proof.
  intros Hf Hfs Hv Hvs Hvend. split; [|split].
  - exact (where_one field "=" v Hf Hfs ltac:(discriminate) eq_refl eq_refl Hv Hvs Hvend).
  - intros op mop Hin.
    rewrite (where_one field op v); auto;
      destruct Hin as [E|[E|[E|[E|[]]]]]; injection E as <- <-;
      solve [reflexivity | discriminate].
  - intro t. unfold convert_value.
    destruct (py_int t); [exact I|]. destruct (py_float_ok t); exact I.
Qed.

Lemma c2_where_literals_witness :
  parse_where_conditions ("age" ++ " = " ++ "30") =
    [("age", PStr (strip_chars dq (strip_chars "'" "30")))] /\
  (forall op mop, In (op, mop) cmp_ops ->
     parse_where_conditions ("age" ++ " " ++ op ++ " " ++ "30") =
       [("age", PDict [(mop, convert_value (strip_chars dq (strip_chars "'" "30")))])]) /\
  (forall t, match convert_value t with PInt _ | PFloat _ | PStr _ => True | _ => False end).
Proof.
  apply (c2_where_literals "age" "30"); solve [discriminate | reflexivity].
Defined.

(** C2 (counterexample): [age = 30] maps [age] to the string [30], and
    [flag > TRUE] compares with the string [TRUE], where the literal rules
    give the integer 30 and the boolean true. *)
Lemma c2_raw_string_cex :
  parse_where_conditions "age = 30" = [("age", PStr "30")] /\
  parse_sql_value "30" = PInt 30 /\
  parse_where_conditions "flag > TRUE" = [("flag", PDict [("$gt", PStr "TRUE")])] /\
  parse_sql_value "TRUE" = PBool true.
Proof. vm_compute. repeat split. Qed.

End SqlWhereProps.

(** ** INSERT statements built from [insertOne] / [insertMany] *)
Module InsertProps.
Import PyStr PyVal MongoToSql Vocab StrFacts.

Lemma map_res_doc_keys (docs : list (list (string * pyval))) :
  map_res doc_keys (map PDict docs) = Ok (map keys docs).
Proof. induction docs as [|d docs IH]; simpl; [reflexivity | now rewrite IH]. Qed.

Definition row_of (cols : list string) (d : list (string * pyval)) : string :=
  "(" ++ join ", " (map (fun f => match lookup f d with Some v => insert_cell v | None => "NULL" end) cols) ++ ")".

Lemma map_res_rows (cols : list string) (docs : list (list (string * pyval))) :
  map_res (insert_row cols) (map PDict docs) = Ok (map (row_of cols) docs).
Proof. induction docs as [|d docs IH]; simpl; [reflexivity | now rewrite IH]. Qed.

(** C4: for any iteration order of Python's [set] (a duplicate-free listing
    of the keys added to it), [insertMany] of a non-empty list of documents
    renders to one INSERT statement whose column list holds every key of
    every document exactly once, in the set's order, with one VALUES row per
    document, in which the cell of a column the document lacks is [NULL]. *)
Theorem c4_insert_rows (set_iter : list string -> list string) (collection : string)
  (docs : list (list (string * pyval))) :
  (forall l, NoDup (set_iter l) /\ (forall x, In x (set_iter l) <-> In x l)) ->
  docs <> [] ->
  exists cols rows,
    insert_to_sql set_iter collection (PList (map PDict docs)) =
      Ok ("INSERT INTO " ++ collection ++ " (" ++ join ", " cols ++ ") VALUES " ++
          join ", " rows ++ ";") /\
    cols = set_iter (concat (map keys docs)) /\
    NoDup cols /\
    (forall x, In x cols <-> exists d, In d docs /\ In x (keys d)) /\
    List.length rows = List.length docs /\
    (forall i d, nth_error docs i = Some d ->
       exists cells,
         nth_error rows i = Some ("(" ++ join ", " cells ++ ")") /\
         List.length cells = List.length cols /\
         (forall j f, nth_error cols j = Some f ->
            nth_error cells j =
              Some (match lookup f d with Some v => insert_cell v | None => "NULL" end))).
Proof.
  intros Hset Hne.
  set (cols := set_iter (concat (map keys docs))).
  exists cols, (map (row_of cols) docs).
  destruct (Hset (concat (map keys docs))) as [Hnd Hin].
  split; [|split; [reflexivity|split; [exact Hnd|split; [|split]]]].
  - unfold insert_to_sql.
    assert (Ht : truthy (PList (map PDict docs)) = true)
      by (destruct docs; [contradiction | reflexivity]).
    rewrite Ht. cbn [negb py_iter bind].
    rewrite map_res_doc_keys. cbn [bind]. fold cols.
    rewrite map_res_rows. reflexivity.
  - intro x. unfold cols. rewrite Hin, in_concat. split.
    + intros [ks [Hks Hx]]. apply in_map_iff in Hks as [d [<- Hd]]. exists d. auto.
    + intros [d [Hd Hx]]. exists (keys d). split; [apply in_map; exact Hd | exact Hx].
  - apply length_map.
  - intros i d Hi.
    exists (map (fun f => match lookup f d with Some v => insert_cell v | None => "NULL" end) cols).
    split; [|split].
    + rewrite nth_error_map, Hi. reflexivity.
    + apply length_map.
    + intros j f Hj. rewrite nth_error_map, Hj. reflexivity.
Qed.

(** an admissible iteration order: first occurrences *)
Definition first_seen (l : list string) : list string := nodup String.string_dec l.

Lemma c4_insert_rows_witness :
  exists cols rows,
    insert_to_sql first_seen "t" (PList (map PDict [[("b", PInt 1)]; [("a", PInt 2)]])) =
      Ok ("INSERT INTO " ++ "t" ++ " (" ++ join ", " cols ++ ") VALUES " ++
          join ", " rows ++ ";") /\
    cols = first_seen (concat (map keys [[("b", PInt 1)]; [("a", PInt 2)]])) /\
    NoDup cols /\
    (forall x, In x cols <-> exists d, In d [[("b", PInt 1)]; [("a", PInt 2)]] /\ In x (keys d)) /\
    List.length rows = List.length [[("b", PInt 1)]; [("a", PInt 2)]] /\
    (forall i d, nth_error [[("b", PInt 1)]; [("a", PInt 2)]] i = Some d ->
       exists cells,
         nth_error rows i = Some ("(" ++ join ", " cells ++ ")") /\
         List.length cells = List.length cols /\
         (forall j f, nth_error cols j = Some f ->
            nth_error cells j =
              Some (match lookup f d with Some v => insert_cell v | None => "NULL" end))).
Proof.
  apply (c4_insert_rows first_seen "t" [[("b", PInt 1)]; [("a", PInt 2)]]).
  - intro l. split; [apply NoDup_nodup | intro x; apply nodup_In].
  - discriminate.
Defined.

(** the command of the C4 counterexample *)
Definition c4_query : string :=
  "db.t.insertMany([{" ++ dq ++ "b" ++ dq ++ ": 1}, {" ++ dq ++ "a" ++ dq ++ ": 2}])".

(** C4 (counterexample): the keys first seen in the order [b], [a] may come
    out of the set as [a], [b] (CPython produces this order for these two
    keys under some hash seeds), and then the columns are [(a, b)], not in
    first-seen order. *)
Lemma c4_set_order_cex :
  handle_insert (fun _ => ["a"; "b"]) c4_query =
    Ok "INSERT INTO t (a, b) VALUES (NULL, 1), (2, NULL);" /\
  NoDup ["a"; "b"] /\ (forall x, In x ["a"; "b"] <-> In x ["b"; "a"]) /\
  first_seen ["b"; "a"] = ["b"; "a"].
Proof.
  split; [vm_compute; reflexivity|].
  split; [repeat constructor; simpl; intuition discriminate|].
  split; [intro x; simpl; tauto | reflexivity].
Qed.

End InsertProps.

(** ** Rendering a find query and parsing it back *)
Module RoundTripProps.
Import PyStr PyNum PyVal Rx SqlToMongo MongoToSql Vocab StrFacts.

(** *** How [find_pattern] reads the rendered text *)

(** A greedy star over a character class reads the longest run of the class
    when the continuation accepts what follows it. *)
Section Greedy.
Variable f : ascii -> bool.
Variable m : option ascii -> string -> caps -> kont -> option (option ascii * string * caps).
Hypothesis m_cons : forall p b s c k, m p (String b s) c k = if f b then k (Some b) s c else None.
Hypothesis m_nil : forall p c k, m p "" c k = None.

Lemma star_greedy_cls (k : kont) (r : string) (w : string) :
  forall n p c x,
  all_chars f w = true ->
  match r with String b _ => f b = false | EmptyString => True end ->
  (String.length w < n)%nat ->
  k (last_or p w) r c = Some x ->
  star_loop m true k n p (w ++ r) c = Some x.
Proof.
  induction w as [|a w IH]; intros n p c x Hw Hr Hn Hk; destruct n as [|n]; try (simpl in Hn; lia).
  - cbn [star_loop append]. destruct r as [|b r].
    + rewrite m_nil. exact Hk.
    + rewrite m_cons, Hr. exact Hk.
  - cbn [star_loop append]. cbn [all_chars] in Hw. apply andb_prop in Hw as [Ha Hw].
    rewrite m_cons, Ha.
    assert (Hlt : (String.length (w ++ r) <? String.length (String a (w ++ r)))%nat = true)
      by (apply Nat.ltb_lt; simpl; lia).
    rewrite Hlt. rewrite (IH n (Some a) c x Hw Hr); [reflexivity| |exact Hk].
    simpl in Hn; lia.
Qed.
End Greedy.

Lemma take_app_len (w r : string) :
  take (String.length (w ++ r) - String.length r) (w ++ r) = w.
Proof.
  unfold take. rewrite length_sapp, Nat.add_sub. apply substring_prefix.
Qed.

Lemma greedy_group (n : nat) (f : ascii -> bool) (w r : string) p c k x :
  w <> "" -> all_chars f w = true ->
  match r with String b _ => f b = false | EmptyString => True end ->
  k (last_or p w) r ((n, w) :: c) = Some x ->
  mt (RGroup n (plus true (RCls f))) p (w ++ r) c k = Some x.
Proof.
  intros Hne Hw Hr Hk. destruct w as [|a w]; [congruence|].
  cbn [all_chars] in Hw. apply andb_prop in Hw as [Ha Hw].
  cbn [mt plus append]. rewrite Ha. cbn [mt].
  apply (star_greedy_cls f (mt (RCls f))); [intros; reflexivity | intros; reflexivity | exact Hw | exact Hr | rewrite length_sapp; simpl; lia | ].
  change (String a (w ++ r)) with ((String a w) ++ r). rewrite take_app_len. exact Hk.
Qed.

Lemma mt_lit_app (w : string) : forall p s c k,
  mt (lit w) p (w ++ s) c k = k (last_or p w) s c.
Proof.
  induction w as [|a w IH]; intros p s c k; [reflexivity|].
  cbn [lit mt append]. rewrite Ascii.eqb_refl. apply IH.
Qed.

Lemma mt_seq_lit (w : string) (r : rx) p s c k :
  mt (RSeq (lit w) r) p (w ++ s) c k = mt r (last_or p w) s c k.
Proof. cbn [mt]. apply mt_lit_app. Qed.

Lemma seq_greedy_group (n : nat) (f : ascii -> bool) (R : rx) (w r : string) p c k x :
  w <> "" -> all_chars f w = true ->
  match r with String b _ => f b = false | EmptyString => True end ->
  mt R (last_or p w) r ((n, w) :: c) k = Some x ->
  mt (RSeq (RGroup n (plus true (RCls f))) R) p (w ++ r) c k = Some x.
Proof.
  intros. change (mt (RGroup n (plus true (RCls f))) p (w ++ r) c
                     (fun p' s' c' => mt R p' s' c' k) = Some x).
  now apply greedy_group.
Qed.

Section Lazy.
Variable stop : ascii.
Variable k : kont.
Hypothesis k_fails : forall p b s c, b <> stop -> k p (String b s) c = None.

Lemma lazy_upto (w : string) : forall n p r c x,
  all_chars (fun b => negb (Ascii.eqb b stop)) w = true ->
  (String.length w < n)%nat ->
  k (last_or p w) r c = Some x ->
  star_loop (mt anychar) false k n p (w ++ r) c = Some x.
Proof.
  induction w as [|a w IH]; intros n p r c x Hw Hn Hk; destruct n as [|n]; try (simpl in Hn; lia).
  - cbn [star_loop append]. cbn [last_or] in Hk. rewrite Hk. reflexivity.
  - cbn [all_chars] in Hw. apply andb_prop in Hw as [Ha Hw].
    cbn [star_loop append]. rewrite k_fails.
    + cbn [mt anychar].
      assert (Hlt : (String.length (w ++ r) <? String.length (String a (w ++ r)))%nat = true)
        by (apply Nat.ltb_lt; simpl; lia).
      rewrite Hlt. apply IH; [exact Hw | simpl in Hn; lia | exact Hk].
    + intro E. subst a. rewrite Ascii.eqb_refl in Ha. discriminate.
Qed.
End Lazy.

Lemma seq_lazy_group (n : nat) (stop : ascii) (R : rx) (w r : string) p c k x :
  (forall p b s c, b <> stop -> mt R p (String b s) c k = None) ->
  all_chars (fun b => negb (Ascii.eqb b stop)) w = true ->
  mt R (last_or p w) r ((n, w) :: c) k = Some x ->
  mt (RSeq (RGroup n (RStar false anychar)) R) p (w ++ r) c k = Some x.
Proof.
  intros Hf Hw Hk.
  change (star_loop (mt anychar) false
            (fun p' s' c' => mt R p' s' ((n, take (String.length (w ++ r) - String.length s') (w ++ r)) :: c') k)
            (S (String.length (w ++ r))) p (w ++ r) c = Some x).
  apply (lazy_upto stop); [intros; apply Hf; assumption | exact Hw | rewrite length_sapp; lia |].
  rewrite take_app_len. exact Hk.
Qed.

(** nothing after [.find(...)]: the optional parts match the empty text *)
Lemma opt_tail_empty p c : mt opt_tail p "" c done = Some (p, "", c).
Proof. reflexivity. Qed.

Lemma mt_eps p s c k : mt REps p s c k = k p s c.
Proof. reflexivity. Qed.

Lemma seq_alt_none (r1 r2 R : rx) p s c k :
  mt r1 p s c (fun p' s' c' => mt R p' s' c' k) = None ->
  mt (RSeq (RAlt r1 r2) R) p s c k = mt r2 p s c (fun p' s' c' => mt R p' s' c' k).
Proof. intro H. cbn [mt]. rewrite H. reflexivity. Qed.

Lemma seq_alt_some (r1 r2 R : rx) p s c k x :
  mt r1 p s c (fun p' s' c' => mt R p' s' c' k) = Some x ->
  mt (RSeq (RAlt r1 r2) R) p s c k = Some x.
Proof. intro H. cbn [mt]. rewrite H. reflexivity. Qed.

Lemma opt_tail_limit (D : string) p c :
  D <> "" -> all_chars is_digit D = true ->
  mt opt_tail p (".limit(" ++ D ++ ")") c done = Some (Some ")"%char, "", (4, D) :: c).
Proof.
  intros Hne Hd. unfold opt_tail, opt. cbn [seq].
  rewrite seq_alt_none by reflexivity. rewrite mt_eps. cbv beta.
  apply seq_alt_some. rewrite mt_seq_lit.
  apply seq_greedy_group; [exact Hne | exact Hd | reflexivity | reflexivity].
Qed.

Lemma find_match (coll lim : string) x :
  coll <> "" -> all_chars is_word coll = true ->
  mt opt_tail (Some ")"%char) lim [(2, "{  }"); (1, coll)] done = Some x ->
  mt find_pattern None ("db." ++ coll ++ ".find(" ++ "{  }" ++ ")" ++ lim) [] done = Some x.
Proof.
  intros Hne Hw H. unfold opt_tail in H. unfold find_pattern. cbn [seq] in H |- *.
  rewrite mt_seq_lit.
  apply seq_greedy_group; [exact Hne | exact Hw | reflexivity |].
  rewrite mt_seq_lit.
  apply (seq_lazy_group 2 ")"); [| reflexivity |].
  - intros p' b s' c' Hb. cbn [lit mt].
    destruct (Ascii.eqb_spec ")" b); [congruence | reflexivity].
  - rewrite mt_seq_lit. exact H.
Qed.

Lemma search_hit (r : rx) (s : string) p' s' caps :
  mt r None s [] done = Some (p', s', caps) -> search r s = Some caps.
Proof. intro H. unfold search. destruct s; cbn [search_from]; rewrite H; reflexivity. Qed.


(** *** [int(str(n)) = n] for the limit digits *)

Lemma all_digits_chars (s : string) : all_digits s = all_chars is_digit s.
Proof. induction s as [|c s IH]; simpl; [reflexivity | now rewrite IH]. Qed.

Lemma digits_val_all (s : string) : forall acc,
  all_digits s = true -> digits_val true acc s = Some (dval acc s).
Proof.
  induction s as [|c s IH]; intros acc H; [reflexivity|].
  cbn [all_digits] in H. apply andb_prop in H as [Hc H].
  cbn [digits_val dval]. rewrite Hc. apply IH, H.
Qed.

Lemma dval_app (s1 s2 : string) : forall acc, dval acc (s1 ++ s2) = dval (dval acc s1) s2.
Proof. induction s1 as [|c s1 IH]; intro acc; simpl; [reflexivity | apply IH]. Qed.

Lemma digit_char_ok (d : N) : (d < 10)%N ->
  is_digit (digit_char d) = true /\ digit_val (digit_char d) = d.
Proof.
  intro H.
  assert (d = 0 \/ d = 1 \/ d = 2 \/ d = 3 \/ d = 4 \/ d = 5 \/ d = 6 \/ d = 7 \/ d = 8 \/ d = 9)%N
    as Hd by lia.
  repeat destruct Hd as [Hd|Hd]; subst d; split; reflexivity.
Qed.

Lemma dec_aux_spec (fuel : nat) : forall n acc, (N.to_nat n < fuel)%nat ->
  exists w, dec_aux fuel n acc = w ++ acc /\ w <> "" /\ all_digits w = true /\ dval 0 w = n.
Proof.
  induction fuel as [|f IH]; intros n acc Hn; [lia|].
  cbn [dec_aux].
  assert (Hm : (n mod 10 < 10)%N) by (apply N.mod_lt; lia).
  destruct (digit_char_ok _ Hm) as [Hdg Hdv].
  destruct (N.eqb_spec (n / 10) 0) as [H0|H0].
  - exists (String (digit_char (n mod 10)) ""). repeat split.
    + discriminate.
    + cbn [all_digits]. rewrite Hdg. reflexivity.
    + cbn [dval]. rewrite Hdv. pose proof (N.div_mod n 10). lia.
  - destruct (IH (n / 10)%N (String (digit_char (n mod 10)) acc)) as (w & E & Hne & Hall & Hv).
    + assert (Hn0 : n <> 0%N) by (intro E; subst n; apply H0; reflexivity).
      assert (Hlt : (n / 10 < n)%N) by (apply N.div_lt; lia). lia.
    + exists (w ++ String (digit_char (n mod 10)%N) ""). repeat split.
      * rewrite E, sapp_assoc. reflexivity.
      * destruct w; [congruence | discriminate].
      * rewrite all_digits_chars in *. 
        clear -Hall Hdg. induction w as [|c w IHw]; cbn [append all_chars] in *;
          [rewrite Hdg; reflexivity | apply andb_prop in Hall as [-> Hall]; auto].
      * rewrite dval_app, Hv. cbn [dval]. rewrite Hdv. pose proof (N.div_mod n 10). lia.
Qed.

Lemma str_N_spec (n : N) :
  str_N n <> "" /\ all_digits (str_N n) = true /\ dval 0 (str_N n) = n.
Proof.
  unfold str_N. destruct (dec_aux_spec (S (N.to_nat n)) n "") as (w & E & H1 & H2 & H3); [lia|].
  rewrite E, sapp_nil_r. auto.
Qed.

Lemma digit_not_space (c : ascii) : is_digit c = true -> is_space c = false.
Proof.
  unfold is_digit, is_space. intro H. apply andb_prop in H as [H1 H2].
  apply Nat.leb_le in H1, H2.
  destruct (Nat.eqb_spec (nat_of_ascii c) 32); [lia|].
  destruct (Nat.leb_spec 9 (nat_of_ascii c)), (Nat.leb_spec (nat_of_ascii c) 13),
           (Nat.leb_spec 28 (nat_of_ascii c)), (Nat.leb_spec (nat_of_ascii c) 31);
    simpl; lia || reflexivity.
Qed.

Lemma rstrip_digits (s : string) : all_digits s = true -> rstrip_by is_space s = s.
Proof.
  induction s as [|c s IH]; intro H; [reflexivity|].
  cbn [all_digits] in H. apply andb_prop in H as [Hc H].
  cbn [rstrip_by]. rewrite IH by exact H. rewrite (digit_not_space c Hc), andb_false_r.
  reflexivity.
Qed.

Lemma strip_digits (s : string) : all_digits s = true -> strip s = s.
Proof.
  intro H. unfold strip. destruct s as [|c s']; [reflexivity|].
  cbn [lstrip_by]. pose proof H as H'. cbn [all_digits] in H'. apply andb_prop in H' as [Hc _].
  rewrite (digit_not_space c Hc). apply rstrip_digits, H.
Qed.

Lemma py_int_digits (s : string) :
  s <> "" -> all_digits s = true -> py_int s = Some (Z.of_N (dval 0 s)).
Proof.
  intros Hne H. unfold py_int. rewrite (strip_digits s H).
  destruct s as [|c s']; [congruence|].
  cbn [all_digits] in H. apply andb_prop in H as [Hc H].
  destruct c as [[] [] [] [] [] [] [] []]; try discriminate Hc;
    simpl; rewrite digits_val_all by exact H; reflexivity.
Qed.

Lemma py_int_str_Z (L : Z) : (0 <= L)%Z -> py_int (str_Z L) = Some L.
Proof.
  intro HL. destruct (str_N_spec (Z.to_N L)) as (H1 & H2 & H3).
  assert (E : str_Z L = str_N (Z.to_N L)) by (destruct L; reflexivity || lia).
  rewrite E, py_int_digits, H3 by assumption. f_equal. lia.
Qed.


(** *** The round trip *)

Lemma format_c3 (coll : string) (L : Z) (skip : option Z) :
  format_mongo_find (c3_query coll (Some L) skip) =
  "db." ++ coll ++ ".find(" ++ "{  }" ++ ")" ++
  (if Z.eqb L 0 then "" else ".limit(" ++ str_Z L ++ ")").
Proof. reflexivity. Qed.

(** C3: rendering a find query (a collection name made of word characters,
    empty filter, no projection, no sort) with limit [L >= 0] and any skip,
    then parsing the text with [find_pattern], gives back limit [L] when
    [L > 0] and no limit when [L = 0], and never a skip: the renderer drops
    a zero limit and does not write the skip. *)
Theorem c3_limit_roundtrip (coll : string) (L : Z) (skip : option Z) :
  coll <> "" -> all_chars is_word coll = true -> (0 <= L)%Z ->
  handle_find_parse (format_mongo_find (c3_query coll (Some L) skip)) =
    Ok (mk_findobj coll (PDict []) (PDict []) [] (if Z.eqb L 0 then None else Some L) None).
Proof.
  intros Hne Hw HL. rewrite format_c3. unfold handle_find_parse.
  destruct (Z.eqb L 0) eqn:HL0.
  - rewrite (search_hit _ _ _ _ _ (find_match coll "" _ Hne Hw (opt_tail_empty _ _))).
    reflexivity.
  - destruct (str_N_spec (Z.to_N L)) as (H1 & H2 & _).
    apply Z.eqb_neq in HL0.
    assert (ED : str_Z L = str_N (Z.to_N L)) by (destruct L; reflexivity || lia).
    assert (Hpy := py_int_str_Z L HL).
    rewrite ED in Hpy |- *. rewrite all_digits_chars in H2.
    rewrite (search_hit _ _ _ _ _ (find_match coll _ _ Hne Hw (opt_tail_limit _ _ _ H1 H2))).
    remember (str_N (Z.to_N L)) as D eqn:HD. clear HD.
    unfold opt_int. cbn [group Nat.eqb].
    destruct (String.eqb_spec D ""); [congruence|]. rewrite Hpy.
    reflexivity.
Qed.

(** the round trip at collection [users], limit 5, skip 3 *)
Lemma c3_limit_roundtrip_witness :
  handle_find_parse (format_mongo_find (c3_query "users" (Some 5%Z) (Some 3%Z))) =
    Ok (mk_findobj "users" (PDict []) (PDict []) [] (Some 5%Z) None).
Proof. apply (c3_limit_roundtrip "users" 5 (Some 3%Z)); [discriminate | reflexivity | lia]. Defined.

(** C3: limit 0 and skip 5 do not survive the round trip: both come back
    absent. *)
Lemma c3_limit_skip_cex :
  handle_find_parse (format_mongo_find (c3_query "users" (Some 0%Z) (Some 5%Z))) =
    Ok (mk_findobj "users" (PDict []) (PDict []) [] None None).
Proof. vm_compute. reflexivity. Qed.

End RoundTripProps.

(** *** Counting and scanning concatenated strings *)
Module StrExtra.
Import PyStr Vocab.

Lemma count_char_app (c : ascii) (a b : string) :
  count_char c (a ++ b) = count_char c a + count_char c b.
Proof. induction a as [|d a IH]; simpl; [reflexivity|rewrite IH; lia]. Qed.

Lemma all_chars_app (p : ascii -> bool) (a b : string) :
  all_chars p (a ++ b) = all_chars p a && all_chars p b.
Proof. induction a as [|c a IH]; cbn; [reflexivity|rewrite IH, andb_assoc; reflexivity]. Qed.

Lemma all_chars_impl (f g : ascii -> bool) (s : string) :
  (forall b, f b = true -> g b = true) -> all_chars f s = true -> all_chars g s = true.
Proof.
  intro Hfg. induction s as [|a s IH]; simpl; [reflexivity|].
  intro H. apply andb_prop in H as [Ha Hs]. rewrite (Hfg a Ha). exact (IH Hs).
Qed.

End StrExtra.

(** *** The bracket helpers *)
Module BracketProps.
Import PyStr PyNum PyVal Vocab StrFacts StrExtra Brackets.

Lemma opens_app a b : opens (a ++ b) = opens a + opens b.
Proof. unfold opens; rewrite !count_char_app; lia. Qed.
Lemma closes_app a b : closes (a ++ b) = closes a + closes b.
Proof. unfold closes; rewrite !count_char_app; lia. Qed.

Lemma mem_open (ch : ascii) : mem_char ch "([{" = true ->
  opens (String ch "") = 1 /\ closes (String ch "") = 0.
Proof.
  cbn [mem_char].
  destruct (Ascii.eqb_spec ch "("); [subst; split; reflexivity|].
  destruct (Ascii.eqb_spec ch "["); [subst; split; reflexivity|].
  destruct (Ascii.eqb_spec ch "{"); [subst; split; reflexivity|].
  discriminate.
Qed.

Lemma mem_close (ch : ascii) : mem_char ch ")]}" = true ->
  opens (String ch "") = 0 /\ closes (String ch "") = 1.
Proof.
  cbn [mem_char].
  destruct (Ascii.eqb_spec ch ")"); [subst; split; reflexivity|].
  destruct (Ascii.eqb_spec ch "]"); [subst; split; reflexivity|].
  destruct (Ascii.eqb_spec ch "}"); [subst; split; reflexivity|].
  discriminate.
Qed.

Lemma mem_other (ch : ascii) : mem_char ch "([{" = false -> mem_char ch ")]}" = false ->
  opens (String ch "") = 0 /\ closes (String ch "") = 0.
Proof.
  unfold opens, closes; cbn [mem_char count_char].
  intros H1 H2.
  repeat match goal with |- context [Ascii.eqb ?a ch] =>
    destruct (Ascii.eqb_spec a ch); [subst; cbn in *; discriminate|] end.
  split; reflexivity.
Qed.

Lemma ebj_loop_spec (js rest : string) : forall P stack,
  js = P ++ rest -> length stack + closes P = opens P ->
  let out := ebj_loop js rest (String.length P) stack in
  out = js \/
  (exists r o c, js = out ++ r /\ out = o ++ String c "" /\ o <> "" /\
     mem_char c ")]}" = true /\ opens out = closes out).
Proof.
  induction rest as [|ch rest IH]; intros P stack Hjs Hbal; cbn [ebj_loop].
  - left; reflexivity.
  - assert (Hjs' : js = (P ++ String ch "") ++ rest) by (rewrite sapp_assoc; exact Hjs).
    assert (Hlen : String.length (P ++ String ch "") = S (String.length P))
      by (rewrite length_sapp; simpl; lia).
    destruct (mem_char ch "([{") eqn:Ho.
    + rewrite <- Hlen. apply IH; [exact Hjs'|].
      destruct (mem_open ch Ho) as [H1 H2].
      rewrite opens_app, closes_app, H1, H2; simpl; lia.
    + destruct (mem_char ch ")]}") eqn:Hc.
      * destruct stack as [|top stack']; [left; reflexivity|].
        destruct (negb _); [left; reflexivity|].
        destruct (mem_close ch Hc) as [H1 H2].
        assert (Hb' : length stack' + closes (P ++ String ch "") = opens (P ++ String ch ""))
          by (rewrite opens_app, closes_app, H1, H2; simpl in Hbal |- *; lia).
        destruct stack' as [|x s''].
        -- destruct (0 <? String.length P)%nat eqn:Hp.
           ++ right. rewrite <- Hlen, Hjs', substring_prefix.
              exists rest, P, ch. split; [reflexivity|]. split; [reflexivity|].
              split; [|split; [exact Hc|simpl in Hb'; lia]].
              apply Nat.ltb_lt in Hp. intros E; subst P; simpl in Hp; lia.
           ++ rewrite <- Hlen. apply IH; assumption.
        -- rewrite <- Hlen. apply IH; assumption.
      * rewrite <- Hlen. apply IH; [exact Hjs'|].
        destruct (mem_other ch Ho Hc) as [H1 H2].
        rewrite opens_app, closes_app, H1, H2; lia.
Qed.

Theorem extract_balanced_json_spec (js : string) :
  let out := extract_balanced_json js in
  out = js \/
  (exists r o c, js = out ++ r /\ out = o ++ String c "" /\ o <> "" /\
     mem_char c ")]}" = true /\ opens out = closes out).
Proof. apply (ebj_loop_spec js js "" []); reflexivity. Qed.

Lemma substring_snoc (s : string) : forall p m ch,
  String.get (p + m) s = Some ch ->
  substring p (S m) s = substring p m s ++ String ch "".
Proof.
  induction s as [|c s IH]; intros p m ch H; [destruct p, m; discriminate|].
  destruct p as [|p].
  - clear IH. revert c s H. induction m as [|m IHm]; intros c s H.
    + simpl in H. inversion H; subst. destruct s; reflexivity.
    + destruct s as [|d s]; [destruct m; discriminate|].
      cbn [substring append]. f_equal.
      change (substring 0 (S m) (String d s) = substring 0 m (String d s) ++ String ch "").
      apply IHm. exact H.
  - cbn [substring]. apply IH. exact H.
Qed.

Lemma char_at_nat (text : string) (k : nat) :
  (k < String.length text)%nat -> char_at text (Z.of_nat k) = String.get k text.
Proof.
  intros H. unfold char_at.
  replace (Z.of_nat k <? 0)%Z with false by (symmetry; apply Z.ltb_ge; lia).
  replace (Z.of_nat k <? 0)%Z with false by (symmetry; apply Z.ltb_ge; lia).
  replace (Z.of_nat (String.length text) <=? Z.of_nat k)%Z with false
    by (symmetry; apply Z.leb_gt; lia).
  cbn [orb]. rewrite Nat2Z.id. reflexivity.
Qed.

Lemma get_in_range (text : string) (k : nat) :
  (k < String.length text)%nat -> exists ch, String.get k text = Some ch.
Proof.
  revert k; induction text as [|c t IH]; intros k H; [simpl in H; lia|].
  destruct k; [eexists; reflexivity|]. simpl in H |- *. apply IH; lia.
Qed.

Lemma close_of_neq (oc : ascii) : mem_char oc "({[" = true -> oc <> close_of oc.
Proof.
  cbn [mem_char].
  destruct (Ascii.eqb_spec oc "("); [subst; discriminate|].
  destruct (Ascii.eqb_spec oc "{"); [subst; discriminate|].
  destruct (Ascii.eqb_spec oc "["); [subst; discriminate|].
  discriminate.
Qed.

Lemma substring_zero (q : nat) (t : string) : substring q 0 t = "".
Proof. revert t; induction q; destruct t; simpl; auto. Qed.

Lemma depth_step (text : string) (oc : ascii) (p k : nat) (ch : ascii) :
  (p <= k)%nat -> String.get k text = Some ch -> oc <> close_of oc ->
  bracket_depth text oc p k =
    (bracket_depth text oc p (k - 1) * (if (p <? k)%nat then 1 else 0)
     + (if Ascii.eqb ch oc then 1 else 0)
     - (if Ascii.eqb ch (close_of oc) then 1 else 0))%Z.
Proof.
  intros Hpk Hg Hne. unfold bracket_depth.
  replace (S k - p)%nat with (S (k - p)) by lia.
  rewrite (substring_snoc text p (k - p) ch) by (replace (p + (k - p))%nat with k by lia; exact Hg).
  rewrite !count_char_app. cbn [count_char].
  destruct (Nat.ltb_spec p k).
  - replace (S (k - 1) - p)%nat with (k - p)%nat by lia.
    destruct (Ascii.eqb_spec oc ch), (Ascii.eqb_spec ch oc), (Ascii.eqb_spec (close_of oc) ch),
      (Ascii.eqb_spec ch (close_of oc)); subst; try congruence; cbv iota; lia.
  - replace (k - p)%nat with O by lia. rewrite substring_zero. cbn [count_char].
    destruct (Ascii.eqb_spec oc ch), (Ascii.eqb_spec ch oc), (Ascii.eqb_spec (close_of oc) ch),
      (Ascii.eqb_spec ch (close_of oc)); subst; try congruence; cbv iota; lia.
Qed.

Lemma get_lt (text : string) (k : nat) (ch : ascii) :
  String.get k text = Some ch -> (k < String.length text)%nat.
Proof.
  revert k; induction text as [|c t IH]; intros k H; [destruct k; discriminate|].
  destruct k; simpl; [lia|]. simpl in H. apply IH in H. lia.
Qed.

Lemma fmb_loop_spec (text : string) (oc : ascii) (p : nat) :
  oc <> close_of oc ->
  forall f k, (p < k)%nat -> (k + f = String.length text)%nat ->
  (0 < bracket_depth text oc p (k - 1))%Z ->
  exists r, fmb_loop text oc (close_of oc) (bracket_depth text oc p (k - 1)) (Z.of_nat k) f = Some r /\
  ((r = (-1)%Z /\ forall j, (k <= j < String.length text)%nat -> (0 < bracket_depth text oc p j)%Z) \/
   (exists m, r = Z.of_nat m /\ (k <= m < String.length text)%nat /\
      String.get m text = Some (close_of oc) /\ bracket_depth text oc p m = 0%Z /\
      forall j, (k <= j < m)%nat -> (0 < bracket_depth text oc p j)%Z)).
Proof.
  intros Hne f. induction f as [|f IH]; intros k Hpk Hkf Hpos.
  - exists (-1)%Z. split; [reflexivity|]. left. split; [reflexivity|]. intros j Hj; lia.
  - assert (Hk : (k < String.length text)%nat) by lia.
    destruct (get_in_range text k Hk) as [ch Hch].
    pose proof (depth_step text oc p k ch ltac:(lia) Hch Hne) as Hd.
    replace (p <? k)%nat with true in Hd by (symmetry; apply Nat.ltb_lt; lia).
    cbn [fmb_loop]. rewrite char_at_nat by exact Hk. rewrite Hch.
    replace (Z.of_nat k + 1)%Z with (Z.of_nat (S k)) by lia.
    assert (Hk1 : (S k - 1 = k)%nat) by lia.
    destruct (Ascii.eqb_spec ch oc) as [Ho|Ho].
    + assert (E : (bracket_depth text oc p (k - 1) + 1 = bracket_depth text oc p (S k - 1))%Z).
      { rewrite Hk1, Hd. subst ch. destruct (Ascii.eqb_spec oc (close_of oc)); [congruence|lia]. }
      rewrite E. destruct (IH (S k)) as [r [Hr Hcases]]; [lia|lia|rewrite <- E; lia|].
      exists r. split; [exact Hr|].
      destruct Hcases as [[-> Hall]|[m [-> [Hm [Hg [H0 Hb]]]]]].
      * left. split; [reflexivity|]. intros j Hj.
        destruct (Nat.eq_dec j k); [subst j; rewrite <- Hk1, <- E; lia|apply Hall; lia].
      * right. exists m. repeat split; try assumption; try lia.
        intros j Hj. destruct (Nat.eq_dec j k); [subst j; rewrite <- Hk1, <- E; lia|apply Hb; lia].
    + destruct (Ascii.eqb_spec ch (close_of oc)) as [Hc|Hc].
      * assert (E : (bracket_depth text oc p (k - 1) - 1 = bracket_depth text oc p k)%Z) by lia.
        rewrite E. destruct (Z.eqb_spec (bracket_depth text oc p k) 0) as [Z0|Z0].
        -- exists (Z.of_nat k). split; [reflexivity|]. right. exists k.
           repeat split; try lia; try (subst ch; exact Hch); intros j Hj; lia.
        -- replace (bracket_depth text oc p k) with (bracket_depth text oc p (S k - 1)) by (rewrite Hk1; reflexivity).
           destruct (IH (S k)) as [r [Hr Hcases]]; [lia|lia|rewrite Hk1; lia|].
           exists r. split; [exact Hr|]. rewrite Hk1 in *.
           destruct Hcases as [[-> Hall]|[m [-> [Hm [Hg [H0 Hb]]]]]].
           ++ left. split; [reflexivity|]. intros j Hj.
              destruct (Nat.eq_dec j k); [subst j; lia|apply Hall; lia].
           ++ right. exists m. repeat split; try assumption; try lia.
              intros j Hj. destruct (Nat.eq_dec j k); [subst j; lia|apply Hb; lia].
      * assert (E : bracket_depth text oc p (k - 1) = bracket_depth text oc p (S k - 1)) by (rewrite Hk1; lia).
        rewrite E. destruct (IH (S k)) as [r [Hr Hcases]]; [lia|lia|rewrite <- E; lia|].
        exists r. split; [exact Hr|]. rewrite Hk1 in *.
        destruct Hcases as [[-> Hall]|[m [-> [Hm [Hg [H0 Hb]]]]]].
        -- left. split; [reflexivity|]. intros j Hj.
           destruct (Nat.eq_dec j k); [subst j; lia|apply Hall; lia].
        -- right. exists m. repeat split; try assumption; try lia.
           intros j Hj. destruct (Nat.eq_dec j k); [subst j; lia|apply Hb; lia].
Qed.

(** [_find_matching_bracket] at an opening bracket [oc] at index [p] returns
    the index [m] of the first [close_of oc] after [p] at which the counts of
    [oc] and [close_of oc] in [text[p:m+1]] are equal, with more [oc] than
    [close_of oc] in every shorter segment; when there is no such index it
    returns -1, and then every segment [text[p:j+1]] holds more [oc]. *)
Theorem find_matching_bracket_spec (text : string) (p : nat) (oc : ascii) :
  String.get p text = Some oc -> mem_char oc "({[" = true ->
  exists r, find_matching_bracket text (Z.of_nat p) = Some r /\
  ((r = (-1)%Z /\ forall j, (p < j < String.length text)%nat -> (0 < bracket_depth text oc p j)%Z) \/
   (exists m, r = Z.of_nat m /\ (p < m < String.length text)%nat /\
      String.get m text = Some (close_of oc) /\ bracket_depth text oc p m = 0%Z /\
      forall j, (p < j < m)%nat -> (0 < bracket_depth text oc p j)%Z)).
Proof.
  intros Hg Hm. pose proof (get_lt text p oc Hg) as Hp.
  pose proof (close_of_neq oc Hm) as Hne.
  unfold find_matching_bracket.
  replace (Z.of_nat (String.length text) <=? Z.of_nat p)%Z with false by (symmetry; apply Z.leb_gt; lia).
  rewrite char_at_nat by exact Hp. rewrite Hg, Hm. cbn [negb].
  pose proof (depth_step text oc p p oc ltac:(lia) Hg Hne) as Hd.
  replace (p <? p)%nat with false in Hd by (symmetry; apply Nat.ltb_ge; lia).
  rewrite Ascii.eqb_refl in Hd.
  destruct (Ascii.eqb_spec oc (close_of oc)); [congruence|].
  assert (E1 : (1 = bracket_depth text oc p (S p - 1))%Z) by (replace (S p - 1)%nat with p by lia; lia).
  replace (Z.of_nat p + 1)%Z with (Z.of_nat (S p)) by lia.
  replace (Z.to_nat (Z.of_nat (String.length text) - Z.of_nat (S p))) with (String.length text - S p)%nat by lia.
  rewrite E1.
  destruct (fmb_loop_spec text oc p Hne (String.length text - S p) (S p)) as [r [Hr Hc]];
    [lia|lia|rewrite <- E1; lia|].
  exists r. split; [exact Hr|].
  destruct Hc as [[-> Hall]|[m [-> [Hm' [Hg' [H0 Hb]]]]]].
  - left. split; [reflexivity|]. intros j Hj. apply Hall; lia.
  - right. exists m. repeat split; try assumption; try lia. all: intros j Hj; apply Hb; lia.
Qed.

(** the bracket opened at index 1 of [a(b)c] closes at index 3 *)
Lemma find_matching_bracket_spec_witness :
  exists r, find_matching_bracket "a(b)c" (Z.of_nat 1) = Some r /\
  ((r = (-1)%Z /\ forall j, (1 < j < String.length "a(b)c")%nat -> (0 < bracket_depth "a(b)c" "(" 1 j)%Z) \/
   (exists m, r = Z.of_nat m /\ (1 < m < String.length "a(b)c")%nat /\
      String.get m "a(b)c" = Some (close_of "(") /\ bracket_depth "a(b)c" "(" 1 m = 0%Z /\
      forall j, (1 < j < m)%nat -> (0 < bracket_depth "a(b)c" "(" 1 j)%Z)).
Proof. apply (find_matching_bracket_spec "a(b)c" 1 "("); reflexivity. Defined.

End BracketProps.

(** *** More of [mongo_to_sql.py] *)
Module MongoExtraProps.
Import PyStr PyNum PyVal Rx MongoToSql SqlToMongo Vocab StrFacts RoundTripProps StrExtra.

Lemma find_match_filter (coll F lim : string) x :
  coll <> "" -> all_chars is_word coll = true ->
  all_chars (fun b => negb (Ascii.eqb b ")")) F = true ->
  mt opt_tail (Some ")"%char) lim [(2, F); (1, coll)] done = Some x ->
  mt find_pattern None ("db." ++ coll ++ ".find(" ++ F ++ ")" ++ lim) [] done = Some x.
Proof.
  intros Hne Hw HF H. unfold opt_tail in H. unfold find_pattern. cbn [seq] in H |- *.
  rewrite mt_seq_lit.
  apply seq_greedy_group; [exact Hne | exact Hw | reflexivity |].
  rewrite mt_seq_lit.
  apply (seq_lazy_group 2 ")"); [| exact HF |].
  - intros p' b s' c' Hb. cbn [lit mt].
    destruct (Ascii.eqb_spec ")" b); [congruence | reflexivity].
  - rewrite mt_seq_lit. exact H.
Qed.

Lemma alt_some (r1 r2 : rx) p s c k x :
  mt r1 p s c k = Some x -> mt (RAlt r1 r2) p s c k = Some x.
Proof. intro H. cbn [mt]. rewrite H. reflexivity. Qed.

Lemma opt_tail_skip (E : string) p c :
  E <> "" -> all_chars is_digit E = true ->
  mt opt_tail p (".skip(" ++ E ++ ")") c done = Some (Some ")"%char, "", (5, E) :: c).
Proof.
  intros Hne Hd. unfold opt_tail, opt. cbn [seq].
  rewrite seq_alt_none by reflexivity. rewrite mt_eps. cbv beta.
  rewrite seq_alt_none by reflexivity. rewrite mt_eps. cbv beta.
  apply alt_some. rewrite mt_seq_lit.
  apply seq_greedy_group; [exact Hne | exact Hd | reflexivity | reflexivity].
Qed.

Lemma opt_tail_limit_skip (D E : string) p c :
  D <> "" -> all_chars is_digit D = true ->
  E <> "" -> all_chars is_digit E = true ->
  mt opt_tail p (".limit(" ++ D ++ ").skip(" ++ E ++ ")") c done =
    Some (Some ")"%char, "", (5, E) :: (4, D) :: c).
Proof.
  intros HD1 HD2 HE1 HE2. unfold opt_tail, opt. cbn [seq].
  rewrite seq_alt_none by reflexivity. rewrite mt_eps. cbv beta.
  apply seq_alt_some. rewrite mt_seq_lit.
  apply seq_greedy_group; [exact HD1 | exact HD2 | reflexivity |].
  change (").skip(" ++ E ++ ")") with (")" ++ (".skip(" ++ E ++ ")")).
  rewrite mt_lit_app. cbv beta.
  apply alt_some. rewrite mt_seq_lit.
  apply seq_greedy_group; [exact HE1 | exact HE2 | reflexivity | reflexivity].
Qed.

Lemma safe_eval_empty : safe_eval "{}" = Ok (PDict []).
Proof. vm_compute. reflexivity. Qed.

Lemma str_Z_digits (L : Z) : (0 <= L)%Z ->
  str_Z L <> "" /\ all_chars is_digit (str_Z L) = true /\ py_int (str_Z L) = Some L.
Proof.
  intro HL. destruct (str_N_spec (Z.to_N L)) as (H1 & H2 & _).
  assert (ED : str_Z L = str_N (Z.to_N L)) by (destruct L; reflexivity || lia).
  rewrite <- ED in H1, H2. rewrite all_digits_chars in H2.
  split; [exact H1|split; [exact H2|apply py_int_str_Z, HL]].
Qed.

(** For [db.coll.find({}).limit(L).skip(S)] with a word collection name and
    [L], [S] at least 0, [_handle_find] renders [LIMIT L] when [L > 0] and
    [OFFSET S] when [S > 0]; with [L = 0] and [S > 0] it renders the limit
    18446744073709551615 before the offset. *)
Theorem find_limit_skip_sql (coll : string) (L S : Z) :
  coll <> "" -> all_chars is_word coll = true -> (0 <= L)%Z -> (0 <= S)%Z ->
  handle_find ("db." ++ coll ++ ".find({})" ++ ".limit(" ++ str_Z L ++ ").skip(" ++ str_Z S ++ ")") =
  Ok ("SELECT * FROM " ++ coll ++
      (if (0 <? L)%Z then " LIMIT " ++ str_Z L ++ (if (0 <? S)%Z then " OFFSET " ++ str_Z S else "")
       else if (0 <? S)%Z then " LIMIT 18446744073709551615 OFFSET " ++ str_Z S else "") ++ ";").
Proof.
  intros Hne Hw HL HS.
  destruct (str_Z_digits L HL) as (HL1 & HL2 & HL3).
  destruct (str_Z_digits S HS) as (HS1 & HS2 & HS3).
  unfold handle_find, handle_find_parse.
  change ("db." ++ coll ++ ".find({})" ++ ".limit(" ++ str_Z L ++ ").skip(" ++ str_Z S ++ ")")
    with ("db." ++ coll ++ ".find(" ++ "{}" ++ ")" ++ (".limit(" ++ str_Z L ++ ").skip(" ++ str_Z S ++ ")")).
  rewrite (search_hit _ _ _ _ _ (find_match_filter coll "{}" _ _ Hne Hw eq_refl
             (opt_tail_limit_skip _ _ _ _ HL1 HL2 HS1 HS2))).
  cbn [group gr Nat.eqb]. unfold opt_int.
  destruct (String.eqb_spec (str_Z L) ""); [congruence|].
  destruct (String.eqb_spec (str_Z S) ""); [congruence|].
  rewrite HL3, HS3.
  change (strip "{}") with "{}".
  change (split_respecting_brackets "{}") with ["{}"].
  cbv iota beta. rewrite safe_eval_empty. cbn [bind reraise_value].
  reflexivity.
Qed.

Ltac nd := let H := fresh in intro H; discriminate H.


Lemma convert_operator_err (field op : string) (val : pyval) (e : exc) :
  convert_operator field op val = Err e ->
  e = TypeError /\ (op = "$in" \/ op = "$nin") /\ truthy val = true /\
  (forall n, py_len val <> Ok n).
Proof.
  unfold convert_operator.
  assert (Hrest : forall vs, match op_map op with
    | Some sql_op =>
        if String.eqb vs "NULL" && String.eqb sql_op "=" then Ok (field ++ " IS NULL")
        else if String.eqb vs "NULL" && String.eqb sql_op "<>" then Ok (field ++ " IS NOT NULL")
        else if String.eqb op "$regex" then
          let pattern := py_str val in
          if startswith "^" pattern then
            Ok (field ++ " LIKE '" ++ escape_quotes (drop 1 pattern) ++ "%'")
          else if endswith "$" pattern then
            Ok (field ++ " LIKE '%" ++ escape_quotes (drop_last pattern) ++ "'")
          else Ok (field ++ " LIKE '%" ++ escape_quotes pattern ++ "%'")
        else Ok (field ++ " " ++ sql_op ++ " " ++ vs)
    | None =>
        if String.eqb op "$in" then
          if negb (truthy val) then Ok "FALSE" else
          let* n := py_len val in
          if Nat.eqb n 0 then Ok "FALSE" else Ok (field ++ " IN (" ++ vs ++ ")")
        else if String.eqb op "$nin" then
          if negb (truthy val) then Ok "TRUE" else
          let* n := py_len val in
          if Nat.eqb n 0 then Ok "TRUE" else Ok (field ++ " NOT IN (" ++ vs ++ ")")
        else if String.eqb op "$exists" then
          if truthy val then Ok (field ++ " IS NOT NULL") else Ok (field ++ " IS NULL")
        else Ok (field ++ " /*unknown op " ++ op ++ "*/ " ++ vs)
    end = Err e ->
    e = TypeError /\ (op = "$in" \/ op = "$nin") /\ truthy val = true /\
    (forall n, py_len val <> Ok n)).
  { intro vs. destruct (op_map op).
    - cbv zeta; repeat match goal with |- context [if ?b then _ else _] => destruct b end;
        nd.
    - destruct (String.eqb_spec op "$in") as [Hin|Hin]; [|destruct (String.eqb_spec op "$nin") as [Hnin|Hnin]].
      1,2: destruct (truthy val) eqn:Ht; cbn [negb]; [|nd];
           destruct (py_len val) as [n|e'] eqn:Hl; cbn [bind];
           [destruct (Nat.eqb n 0); nd|];
           intro E; injection E as <-;
           assert (e' = TypeError) by (destruct val; cbn in Hl; congruence);
           split; [assumption|]; split; [auto|]; split; [reflexivity|];
           intros m Hm; congruence.
      destruct (String.eqb op "$exists"); [destruct (truthy val)|]; nd. }
  destruct val; cbn [is_number]; try apply Hrest;
    destruct (String.eqb op "$eq"); [nd|]; destruct (String.eqb op "$ne"); [nd|]; apply Hrest.
Qed.

(** [_convert_operator] raises only [TypeError], and it raises it exactly
    for [$in] and [$nin] with a truthy value that has no [len]. *)
Theorem convert_operator_errors (field op : string) (val : pyval) :
  (forall e, convert_operator field op val = Err e -> e = TypeError) /\
  (convert_operator field op val = Err TypeError <->
   (op = "$in" \/ op = "$nin") /\ truthy val = true /\ (forall n, py_len val <> Ok n)).
Proof.
  split; [intros e H; apply (convert_operator_err field op val e H)|].
  split; [intro H; apply (convert_operator_err field op val TypeError H)|].
  intros (Hop & Ht & Hl).
  destruct Hop as [-> | ->];
    destruct val; try (exfalso; apply (Hl _ eq_refl)); try discriminate Ht;
    unfold convert_operator; cbn - [truthy py_str]; rewrite Ht; reflexivity.
Qed.






Lemma depth_dict_cons (k : string) (y : pyval) (t : list (string * pyval)) :
  depth (PDict ((k, y) :: t)) = Nat.max (S (depth y)) (depth (PDict t)).
Proof. cbn [depth fold_right]. lia. Qed.

Lemma depth_list_cons (y : pyval) (t : list pyval) :
  depth (PList (y :: t)) = Nat.max (S (depth y)) (depth (PList t)).
Proof. cbn [depth fold_right]. lia. Qed.

Lemma depth_lookup (k : string) (kv : list (string * pyval)) (x : pyval) :
  lookup k kv = Some x -> (depth x < depth (PDict kv))%nat.
Proof.
  induction kv as [|[k' y] t IH]; cbn [lookup]; [discriminate|].
  rewrite depth_dict_cons. destruct (String.eqb k k').
  - intro E; injection E as ->. lia.
  - intro H. specialize (IH H). lia.
Qed.

Lemma depth_in_list (l : list pyval) (x : pyval) :
  In x l -> (depth x < depth (PList l))%nat.
Proof.
  induction l as [|y t IH]; cbn [In]; [contradiction|].
  rewrite depth_list_cons. intros [->|H]; [lia|]. specialize (IH H). lia.
Qed.

Lemma py_iter_depth (sub : pyval) (subs : list pyval) (x : pyval) :
  py_iter sub = Ok subs -> In x subs -> (depth x <= depth sub)%nat.
Proof.
  destruct sub; cbn [py_iter]; intro E; (injection E as E; subst) || discriminate E.
  all: intro H; first [apply in_map_iff in H as [? [<- _]]; cbn; lia
                      | pose proof (depth_in_list _ x H); lia].
Qed.

Lemma map_res_ext_in {A B} (f g : A -> res B) (l : list A) :
  (forall x, In x l -> f x = g x) -> map_res f l = map_res g l.
Proof.
  induction l as [|x t IH]; intro H; cbn [map_res]; [reflexivity|].
  rewrite (H x (or_introl eq_refl)), IH; [reflexivity|].
  intros y Hy; apply H; right; exact Hy.
Qed.

Lemma where_sql_fuel_stable (f1 : nat) : forall f2 v,
  (depth v < f1)%nat -> (depth v < f2)%nat -> where_sql_fuel f1 v = where_sql_fuel f2 v.
Proof.
  induction f1 as [|a IH]; intros f2 v H1 H2; [lia|].
  destruct f2 as [|b]; [lia|]. cbn [where_sql_fuel].
  destruct (negb (truthy v)); [reflexivity|].
  assert (Hsub : forall sub, (depth sub < depth v)%nat -> forall sep,
     (let* subs := py_iter sub in
      let* conds := map_res (where_sql_fuel a) subs in Ok (nonempty_join sep conds)) =
     (let* subs := py_iter sub in
      let* conds := map_res (where_sql_fuel b) subs in Ok (nonempty_join sep conds))).
  { intros sub Hd sep. destruct (py_iter sub) as [subs|e] eqn:Hi; cbn [bind]; [|reflexivity].
    rewrite (map_res_ext_in (where_sql_fuel a) (where_sql_fuel b)); [reflexivity|].
    intros x Hx. pose proof (py_iter_depth sub subs x Hi Hx). apply IH; lia. }
  destruct v; try reflexivity.
  - rewrite (map_res_ext_in (where_sql_fuel a) (where_sql_fuel b)); [reflexivity|].
    intros x Hx. pose proof (depth_in_list l x Hx). apply IH; lia.
  - destruct (lookup "$and" kv) as [sub|] eqn:Ha.
    + apply Hsub. exact (depth_lookup _ _ _ Ha).
    + destruct (lookup "$or" kv) as [sub|] eqn:Ho; [|reflexivity].
      apply Hsub. exact (depth_lookup _ _ _ Ho).
Qed.

Lemma where_sub_fuel (f : nat) (sub : pyval) (sep : string) :
  (depth sub < f)%nat ->
  (let* subs := py_iter sub in
   let* conds := map_res (where_sql_fuel f) subs in Ok (nonempty_join sep conds)) =
  (let* subs := py_iter sub in
   let* conds := map_res (where_sql_fuel (S (depth sub))) subs in Ok (nonempty_join sep conds)).
Proof.
  intro Hf. destruct (py_iter sub) as [subs|e] eqn:Hi; cbn [bind]; [|reflexivity].
  rewrite (map_res_ext_in (where_sql_fuel f) (where_sql_fuel (S (depth sub)))); [reflexivity|].
  intros x Hx. pose proof (py_iter_depth sub subs x Hi Hx). apply where_sql_fuel_stable; lia.
Qed.

(** A filter with an [$and] key is translated from its [$and] entry alone,
    and one with an [$or] key but no [$and] key from its [$or] entry alone:
    the other keys of the filter are dropped. *)
Theorem where_and_or_shadow (kv : list (string * pyval)) (sub : pyval) :
  (lookup "$and" kv = Some sub ->
   build_where_sql (PDict kv) = build_where_sql (PDict [("$and", sub)])) /\
  (lookup "$and" kv = None -> lookup "$or" kv = Some sub ->
   build_where_sql (PDict kv) = build_where_sql (PDict [("$or", sub)])).
Proof.
  assert (Hne : forall k, lookup k kv = Some sub -> truthy (PDict kv) = true)
    by (intros k H; destruct kv; [discriminate H|reflexivity]).
  split.
  - intro Ha. unfold build_where_sql. cbn [where_sql_fuel].
    rewrite (Hne _ Ha), Ha. cbn [negb truthy lookup String.eqb Ascii.eqb Bool.eqb].
    rewrite (where_sub_fuel (depth (PDict kv))), (where_sub_fuel (depth (PDict [("$and", sub)])));
      [reflexivity| |].
    + rewrite depth_dict_cons; cbn [depth fold_right]; lia.
    + exact (depth_lookup _ _ _ Ha).
  - intros Ha Ho. unfold build_where_sql. cbn [where_sql_fuel].
    rewrite (Hne _ Ho), Ha, Ho. cbn [negb truthy lookup String.eqb Ascii.eqb Bool.eqb].
    rewrite (where_sub_fuel (depth (PDict kv))), (where_sub_fuel (depth (PDict [("$or", sub)])));
      [reflexivity| |].
    + rewrite depth_dict_cons; cbn [depth fold_right]; lia.
    + exact (depth_lookup _ _ _ Ho).
Qed.

Lemma where_falsy_empty (f : nat) (x : pyval) : truthy x = false -> where_sql_fuel f x = Ok "".
Proof. destruct f; cbn [where_sql_fuel]; [reflexivity|]. intros ->. reflexivity. Qed.

Lemma map_res_falsy (f : nat) (l : list pyval) :
  forallb (fun x => negb (truthy x)) l = true ->
  map_res (where_sql_fuel f) l = Ok (map (fun _ => "") l).
Proof.
  induction l as [|x t IH]; cbn [forallb map_res map]; [reflexivity|].
  intro H. apply andb_prop in H as [Hx Ht]. apply negb_true_iff in Hx.
  rewrite where_falsy_empty by exact Hx. cbn [bind]. rewrite IH by exact Ht. reflexivity.
Qed.

Lemma filter_empties (l : list pyval) :
  filter (fun c => negb (String.eqb c "")) (map (fun _ => "") l) = [].
Proof. induction l; [reflexivity|exact IHl]. Qed.

(** An [$and] or [$or] whose sub-filters are all falsy (empty dicts or
    lists, 0, None, ...) is translated to the empty condition [()]. *)
Theorem where_falsy_subfilters (op : string) (l : list pyval) :
  op = "$and" \/ op = "$or" -> forallb (fun x => negb (truthy x)) l = true ->
  build_where_sql (PDict [(op, PList l)]) = Ok "()".
Proof.
  intros Hop Hl. unfold build_where_sql. cbn [where_sql_fuel truthy negb].
  destruct Hop as [-> | ->]; cbn [lookup String.eqb Ascii.eqb Bool.eqb py_iter bind];
    rewrite map_res_falsy by exact Hl; cbn [bind]; unfold nonempty_join;
    rewrite filter_empties; reflexivity.
Qed.

Lemma count_repeat (c d : ascii) (n : nat) :
  count_char c (repeat_str n (String d "")) = if Ascii.eqb c d then n else 0.
Proof.
  induction n as [|n IH]; cbn [repeat_str]; [destruct (Ascii.eqb c d); reflexivity|].
  rewrite count_char_app, IH. cbn [count_char]. destruct (Ascii.eqb c d); lia.
Qed.

Lemma all_chars_repeat (p : ascii -> bool) (d : ascii) (n : nat) :
  p d = true -> all_chars p (repeat_str n (String d "")) = true.
Proof.
  intro H. induction n as [|n IH]; cbn [repeat_str]; [reflexivity|].
  rewrite all_chars_app, IH. cbn. rewrite H. reflexivity.
Qed.

(** [_balance_brackets] only appends closing braces and brackets to its
    input, keeps its opening ones, and leaves at least as many [}] as [{] and
    at least as many [] ]] as [[]. *)
Theorem balance_brackets_spec (js : string) :
  (exists sfx, balance_brackets js = js ++ sfx /\
     all_chars (fun c => Ascii.eqb c "}" || Ascii.eqb c "]") sfx = true) /\
  count_char "{" (balance_brackets js) = count_char "{" js /\
  count_char "[" (balance_brackets js) = count_char "[" js /\
  count_char "{" (balance_brackets js) <= count_char "}" (balance_brackets js) /\
  count_char "[" (balance_brackets js) <= count_char "]" (balance_brackets js).
Proof.
  unfold balance_brackets.
  destruct (Nat.ltb_spec (count_char "}" js) (count_char "{" js)) as [H1|H1].
  - set (js1 := js ++ repeat_str (count_char "{" js - count_char "}" js) "}").
    assert (C1 : forall c, count_char c js1 = count_char c js +
              (if Ascii.eqb c "}" then count_char "{" js - count_char "}" js else 0))
      by (intro c; unfold js1; rewrite count_char_app, count_repeat; reflexivity).
    destruct (Nat.ltb_spec (count_char "]" js) (count_char "[" js)) as [H2|H2].
    + rewrite !count_char_app, !count_repeat. cbn [Ascii.eqb Bool.eqb].
      rewrite !C1 in *. cbn [Ascii.eqb Bool.eqb] in *.
      split; [|lia].
      exists (repeat_str (count_char "{" js - count_char "}" js) "}" ++
              repeat_str (count_char "[" js - count_char "]" js) "]").
      split; [unfold js1; rewrite sapp_assoc; reflexivity|].
      rewrite all_chars_app, !all_chars_repeat; reflexivity.
    + rewrite !C1 in *. cbn [Ascii.eqb Bool.eqb] in *. split; [|lia].
      exists (repeat_str (count_char "{" js - count_char "}" js) "}").
      split; [reflexivity|]. apply all_chars_repeat; reflexivity.
  - destruct (Nat.ltb_spec (count_char "]" js) (count_char "[" js)) as [H2|H2].
    + rewrite !count_char_app, !count_repeat. cbn [Ascii.eqb Bool.eqb].
      split; [|lia].
      exists (repeat_str (count_char "[" js - count_char "]" js) "]").
      split; [reflexivity|]. apply all_chars_repeat; reflexivity.
    + split; [|lia]. exists "". rewrite sapp_nil_r. split; reflexivity.
Qed.
Lemma escape_unescape (s : string) : forall fuel fuel',
  (String.length s < fuel)%nat ->
  (String.length (replace_fuel fuel "'" "''" s) < fuel')%nat ->
  replace_fuel fuel' "''" "'" (replace_fuel fuel "'" "''" s) = s.
Proof.
  induction s as [|c s IH]; intros fuel fuel' Hf Hf'.
  - destruct fuel; [simpl in Hf; lia|]. destruct fuel'; reflexivity.
  - destruct fuel as [|f]; [simpl in Hf; lia|].
    cbn [replace_fuel] in Hf' |- *.
    destruct (Ascii.eqb_spec c "'"%char) as [->|Hc].
    + cbn [startswith drop String.length append] in Hf' |- *. rewrite Ascii.eqb_refl in *.
      cbn [andb] in *.
      destruct fuel' as [|f']; [simpl in Hf'; lia|].
      cbn [replace_fuel startswith]. rewrite Ascii.eqb_refl. cbn [andb drop String.length append].
      rewrite IH; [reflexivity | simpl in Hf; lia | simpl in Hf'; lia].
    + assert (Hs : startswith "'" (String c s) = false).
      { cbn [startswith]. destruct (Ascii.eqb_spec "'"%char c); [congruence|reflexivity]. }
      rewrite Hs in *.
      destruct fuel' as [|f']; [simpl in Hf'; lia|].
      cbn [replace_fuel].
      assert (Hs2 : startswith "''" (String c (replace_fuel f "'" "''" s)) = false).
      { cbn [startswith]. destruct (Ascii.eqb_spec "'"%char c); [congruence|reflexivity]. }
      rewrite Hs2. rewrite IH; [reflexivity | simpl in Hf; lia | simpl in Hf'; lia].
Qed.

Lemma escape_count (s : string) : forall fuel, (String.length s < fuel)%nat ->
  count_char "'" (replace_fuel fuel "'" "''" s) = 2 * count_char "'" s /\
  String.length (replace_fuel fuel "'" "''" s) = String.length s + count_char "'" s.
Proof.
  induction s as [|c s IH]; intros fuel Hf; [destruct fuel; split; reflexivity|].
  destruct fuel as [|f]; [simpl in Hf; lia|]. cbn [replace_fuel].
  destruct (IH f ltac:(simpl in Hf; lia)) as [IH1 IH2].
  destruct (Ascii.eqb_spec c "'"%char) as [->|Hc].
  - cbn [startswith drop String.length append count_char Ascii.eqb Bool.eqb andb].
    rewrite IH1, IH2. cbn [Ascii.eqb Bool.eqb]. lia.
  - assert (Hs : startswith "'" (String c s) = false).
    { cbn [startswith]. destruct (Ascii.eqb_spec "'"%char c); [congruence|reflexivity]. }
    rewrite Hs. cbn [count_char String.length].
    destruct (Ascii.eqb_spec "'"%char c); [congruence|]. lia.
Qed.

(** [_escape_quotes] doubles every single quote: replacing [''] by [']
    in its output gives back the input, and the output holds twice as many
    quotes and is longer by their number. *)
Theorem escape_quotes_roundtrip (s : string) :
  replace "''" "'" (escape_quotes s) = s /\
  count_char "'" (escape_quotes s) = 2 * count_char "'" s /\
  String.length (escape_quotes s) = String.length s + count_char "'" s.
Proof.
  unfold escape_quotes, replace.
  destruct (escape_count s (S (String.length s)) ltac:(lia)) as [H1 H2].
  split; [|split; assumption].
  apply escape_unescape; lia.
Qed.

Lemma eq_int_0_not_1 (v : pyval) : eq_int v 0 = true -> eq_int v 1 = false.
Proof.
  destruct v; cbn [eq_int]; try discriminate.
  - intro H. destruct b; [discriminate H|reflexivity].
  - intro H. apply Z.eqb_eq in H. subst. reflexivity.
  - destruct (py_int _) as [z|]; [|discriminate].
    intro H. apply andb_prop in H as [H1 H2]. apply Z.eqb_eq in H2. subst z.
    rewrite andb_false_r. reflexivity.
Qed.

(** A projection whose values are all 0 (an exclusion projection) gives the
    same SQL as the empty projection: [SELECT *]. *)
Theorem exclusion_projection_ignored (o : findobj) (kv : list (string * pyval)) :
  f_projection o = PDict kv -> forallb (fun '(_, v) => eq_int v 0) kv = true ->
  mongo_find_to_sql o =
  mongo_find_to_sql (mk_findobj (f_collection o) (f_find o) (PDict []) (f_sort o) (f_limit o) (f_skip o)).
Proof.
  intros Hp Hall. unfold mongo_find_to_sql. cbn [f_collection f_find f_projection f_sort f_limit f_skip].
  rewrite Hp.
  assert (Hok : projection_ok (PDict kv) = true).
  { unfold projection_ok. apply forallb_forall. intros [k v] Hin.
    apply forallb_forall with (x := (k, v)) in Hall; [|exact Hin]. rewrite Hall. reflexivity. }
  assert (Hcol : columns_of (PDict kv) = "*").
  { unfold columns_of.
    assert (Hnil : filter (fun '(_, inc) => eq_int inc 1) kv = []).
    { clear Hp Hok. induction kv as [|[k v] t IH]; [reflexivity|].
      cbn [forallb] in Hall. apply andb_prop in Hall as [Hv Ht].
      cbn [filter]. rewrite (eq_int_0_not_1 v Hv). apply IH, Ht. }
    rewrite Hnil. reflexivity. }
  rewrite Hok, Hcol. reflexivity.
Qed.

(** [db.users.find({}).limit(5).skip(2)] *)
Lemma find_limit_skip_sql_witness :
  handle_find "db.users.find({}).limit(5).skip(2)" = Ok "SELECT * FROM users LIMIT 5 OFFSET 2;".
Proof.
  exact (find_limit_skip_sql "users" 5 2 ltac:(discriminate) eq_refl ltac:(lia) ltac:(lia)).
Defined.

(** [$in] with the value 5 raises [TypeError] *)
Lemma convert_operator_errors_witness :
  convert_operator "a" "$in" (PInt 5) = Err TypeError.
Proof.
  apply (proj2 (proj2 (convert_operator_errors "a" "$in" (PInt 5)))).
  split; [left; reflexivity | split; [reflexivity | intros n H; discriminate H]].
Defined.


(** [{"b": 2, "$and": [{"a": 1}]}] is translated as [{"$and": [{"a": 1}]}] *)
Lemma where_and_or_shadow_witness :
  build_where_sql (PDict [("b", PInt 2); ("$and", PList [PDict [("a", PInt 1)]])]) =
  build_where_sql (PDict [("$and", PList [PDict [("a", PInt 1)]])]).
Proof.
  apply (proj1 (where_and_or_shadow [("b", PInt 2); ("$and", PList [PDict [("a", PInt 1)]])]
                  (PList [PDict [("a", PInt 1)]]))).
  reflexivity.
Defined.

(** [{"$and": [{}, [], None]}] *)
Lemma where_falsy_subfilters_witness :
  build_where_sql (PDict [("$and", PList [PDict []; PList []; PNone])]) = Ok "()".
Proof. apply where_falsy_subfilters; [left; reflexivity | reflexivity]. Defined.

(** [{"_id": 0, "b": 0}] *)
Lemma exclusion_projection_ignored_witness :
  let o := mk_findobj "t" (PDict []) (PDict [("_id", PInt 0); ("b", PInt 0)]) [] (Some 3%Z) None in
  mongo_find_to_sql o =
  mongo_find_to_sql (mk_findobj (f_collection o) (f_find o) (PDict []) (f_sort o) (f_limit o) (f_skip o)).
Proof.
  cbv zeta. apply (exclusion_projection_ignored _ [("_id", PInt 0); ("b", PInt 0)]); reflexivity.
Defined.

End MongoExtraProps.

(** *** SQL literals *)
Module SqlValueProps.
Import PyStr PyNum PyVal Rx MongoToSql SqlToMongo Vocab StrFacts RoundTripProps.

Lemma digit_upper (c : ascii) : is_digit c = true -> to_upper c = c.
Proof.
  unfold is_digit, to_upper, is_lower. intro H. apply andb_prop in H as [H1 H2].
  apply Nat.leb_le in H1, H2.
  destruct (Nat.leb_spec 97 (nat_of_ascii c)); [lia|reflexivity].
Qed.

Lemma digit_neq (c d : ascii) : is_digit c = true -> is_digit d = false -> Ascii.eqb c d = false.
Proof. intros Hc Hd. destruct (Ascii.eqb_spec c d); [subst; congruence|reflexivity]. Qed.

Lemma upper_digits (s : string) : all_digits s = true -> upper s = s.
Proof.
  induction s as [|c s IH]; [reflexivity|]. cbn [all_digits upper].
  intro H. apply andb_prop in H as [Hc Hs]. rewrite digit_upper, IH; auto.
Qed.

Lemma contains_dot_digits (s : string) : all_digits s = true -> contains "." s = false.
Proof.
  induction s as [|c s IH]; [reflexivity|]. cbn [all_digits].
  intro H. apply andb_prop in H as [Hc Hs]. rewrite contains_cons, IH by exact Hs.
  cbn [startswith]. rewrite (digit_neq c "." Hc eq_refl) at 1 || idtac.
  destruct (Ascii.eqb_spec "." c); [subst; discriminate Hc|reflexivity].
Qed.

(** the dispatch of [_parse_sql_value] on an unquoted, non-keyword text
    without a dot *)
Lemma parse_plain (v : string) :
  strip v = v -> startswith "'" v = false -> startswith dq v = false ->
  String.eqb (upper v) "NULL" = false -> String.eqb (upper v) "TRUE" = false ->
  String.eqb (upper v) "FALSE" = false -> contains "." v = false ->
  parse_sql_value v = match py_int v with Some z => PInt z | None => PStr v end.
Proof.
  intros Hs H1 H2 H3 H4 H5 H6. unfold parse_sql_value. rewrite Hs, H1, H2, H3, H4, H5, H6.
  reflexivity.
Qed.

Lemma digits_head (D : string) : D <> "" -> all_digits D = true ->
  exists c D', D = String c D' /\ is_digit c = true /\ all_digits D' = true.
Proof.
  destruct D as [|c D']; [congruence|]. cbn [all_digits]. intros _ H.
  apply andb_prop in H as [H1 H2]. exists c, D'. auto.
Qed.

Lemma digits_not_keyword (D : string) (kw : string) (d : ascii) (kw' : string) :
  D <> "" -> all_digits D = true -> kw = String d kw' -> is_digit d = false ->
  String.eqb (upper D) kw = false /\ startswith (String d "") D = false.
Proof.
  intros Hne Hd -> Hk. rewrite upper_digits by exact Hd.
  destruct (digits_head D Hne Hd) as (c & D' & -> & Hc & _).
  cbn [String.eqb startswith]. rewrite (digit_neq c d Hc Hk).
  destruct (Ascii.eqb_spec d c); [subst; congruence|]. split; reflexivity.
Qed.

Lemma strip_minus (D : string) : D <> "" -> all_digits D = true ->
  strip (String "-" D) = String "-" D.
Proof.
  intros Hne Hd. unfold strip. cbn [lstrip_by]. change (is_space "-") with false. cbv iota.
  change (String "-" D) with ("-" ++ D).
  apply rstrip_app_keep; [apply rstrip_digits; exact Hd|exact Hne].
Qed.

(** The decimal rendering of any integer is read back as that integer by
    [_parse_sql_value] and by [convert_value]. *)
Theorem parse_int_literal (n : Z) :
  parse_sql_value (str_Z n) = PInt n /\ convert_value (str_Z n) = PInt n.
Proof.
  destruct (str_N_spec (Z.to_N (Z.abs n))) as (Hne & Hd & Hv).
  remember (str_N (Z.to_N (Z.abs n))) as D eqn:ED.
  assert (Hpy : py_int (str_Z n) = Some n).
  { destruct n as [|p|p].
    - reflexivity.
    - change (str_Z (Z.pos p)) with (str_N (Z.to_N (Z.abs (Z.pos p)))). rewrite <- ED.
      rewrite py_int_digits by assumption. rewrite Hv. reflexivity.
    - change (str_Z (Z.neg p)) with ("-" ++ str_N (Z.to_N (Z.abs (Z.neg p)))). rewrite <- ED.
      unfold py_int. cbn [append]. rewrite strip_minus by assumption.
      destruct (digits_head D Hne Hd) as (c & D' & EC & Hc & Hd').
      rewrite EC. cbn [digits_val]. rewrite Hc.
      rewrite digits_val_all by exact Hd'. cbn [option_map].
      change (dval (10 * 0 + digit_val c)%N D') with (dval 0 (String c D')).
      rewrite <- EC, Hv. reflexivity. }
  split; [|unfold convert_value; rewrite Hpy; reflexivity].
  enough (Hpl : parse_sql_value (str_Z n) =
            match py_int (str_Z n) with Some z => PInt z | None => PStr (str_Z n) end)
    by (rewrite Hpl, Hpy; reflexivity).
  clear Hpy. destruct n as [|p|p]; [reflexivity| |].
  - change (str_Z (Z.pos p)) with (str_N (Z.to_N (Z.abs (Z.pos p)))). rewrite <- ED.
    destruct (digits_not_keyword D "NULL" "N" "ULL" Hne Hd eq_refl eq_refl) as [H1 _].
    destruct (digits_not_keyword D "TRUE" "T" "RUE" Hne Hd eq_refl eq_refl) as [H2 _].
    destruct (digits_not_keyword D "FALSE" "F" "ALSE" Hne Hd eq_refl eq_refl) as [H3 _].
    destruct (digits_not_keyword D "'" "'" "" Hne Hd eq_refl eq_refl) as [_ H4].
    destruct (digits_not_keyword D dq (ascii_of_nat 34) "" Hne Hd eq_refl eq_refl) as [_ H5].
    apply parse_plain; auto using strip_digits, contains_dot_digits.
  - change (str_Z (Z.neg p)) with (String "-" (str_N (Z.to_N (Z.abs (Z.neg p))))). rewrite <- ED.
    apply parse_plain;
      first [ apply strip_minus; assumption | reflexivity
            | cbn [upper]; rewrite upper_digits by exact Hd; reflexivity
            | rewrite contains_cons, contains_dot_digits by exact Hd; reflexivity ].
Qed.

Lemma strip_quoted (q : ascii) (s : string) : is_space q = false ->
  strip (String q (s ++ String q "")) = String q (s ++ String q "").
Proof.
  intro Hq. unfold strip. cbn [lstrip_by]. rewrite Hq.
  change (String q (s ++ String q "")) with ((String q s) ++ String q "").
  apply rstrip_last_keep, Hq.
Qed.

Lemma substring_quoted (q : ascii) (s : string) :
  substring 1 (String.length (String q (s ++ String q "")) - 2) (String q (s ++ String q "")) = s.
Proof.
  cbn [substring String.length]. rewrite length_sapp. cbn [String.length].
  replace (S (String.length s + 1) - 2)%nat with (String.length s) by lia.
  apply substring_prefix.
Qed.

Lemma quoted_ends (q : ascii) (s : string) :
  startswith (String q "") (String q (s ++ String q "")) = true /\
  endswith (String q "") (String q (s ++ String q "")) = true.
Proof.
  split; [cbn [startswith]; rewrite Ascii.eqb_refl; reflexivity|].
  change (String q (s ++ String q "")) with ((String q s) ++ String q "").
  rewrite endswith_last. apply Ascii.eqb_refl.
Qed.

(** [_parse_sql_value] of a text in single or double quotes is the text
    between the quotes, unchanged (a doubled quote inside is not undone). *)
Theorem parse_quoted_literal (s : string) :
  parse_sql_value ("'" ++ s ++ "'") = PStr s /\ parse_sql_value (dq ++ s ++ dq) = PStr s.
Proof.
  split.
  - change ("'" ++ s ++ "'") with (String "'" (s ++ String "'" "")).
    unfold parse_sql_value. rewrite strip_quoted by reflexivity.
    destruct (quoted_ends "'" s) as [-> ->]. cbn [andb orb].
    apply f_equal, substring_quoted.
  - change (dq ++ s ++ dq) with (String (ascii_of_nat 34) (s ++ String (ascii_of_nat 34) "")).
    unfold parse_sql_value. rewrite strip_quoted by reflexivity.
    change (startswith "'" (String (ascii_of_nat 34) (s ++ String (ascii_of_nat 34) ""))) with false.
    unfold dq. destruct (quoted_ends (ascii_of_nat 34) s) as [-> ->]. cbn [andb orb].
    apply f_equal, substring_quoted.
Qed.

End SqlValueProps.

(** *** The UPDATE and DELETE handlers *)
Module SqlDmlProps.
Import PyStr PyNum PyVal Rx SqlToMongo Vocab StrFacts RoundTripProps StrExtra SqlDml.

Lemma mt_seq_litI (w : string) (r : rx) p s c k :
  mt (RSeq (litI w) r) p (w ++ s) c k = mt r (last_or p w) s c k.
Proof.
  cbn [mt]. revert p. induction w as [|a w IH]; intro p; [reflexivity|].
  cbn [litI mt append]. rewrite Ascii.eqb_refl. apply IH.
Qed.

Lemma seq_greedy_cls (f : ascii -> bool) (R : rx) (w r : string) p c k x :
  w <> "" -> all_chars f w = true ->
  match r with String b _ => f b = false | EmptyString => True end ->
  mt R (last_or p w) r c k = Some x ->
  mt (RSeq (plus true (RCls f)) R) p (w ++ r) c k = Some x.
Proof.
  intros Hne Hw Hr Hk. destruct w as [|a w]; [congruence|].
  cbn [all_chars] in Hw. apply andb_prop in Hw as [Ha Hw].
  cbn [mt plus append]. rewrite Ha. cbn [mt].
  apply (star_greedy_cls f (mt (RCls f))); [intros; reflexivity | intros; reflexivity | exact Hw | exact Hr | rewrite length_sapp; simpl; lia | exact Hk].
Qed.

(** A lazy star over any character stops at the first position where the
    continuation succeeds. *)
Lemma lazy_first (k : kont) (r : string) (w : string) : forall n p c x,
  (forall u v p' c', v <> "" -> w = u ++ v -> k p' (v ++ r) c' = None) ->
  (String.length w < n)%nat ->
  k (last_or p w) r c = Some x ->
  star_loop (mt anychar) false k n p (w ++ r) c = Some x.
Proof.
  induction w as [|a w IH]; intros n p c x Hf Hn Hk; destruct n as [|n]; try (simpl in Hn; lia).
  - cbn [star_loop append]. cbn [last_or] in Hk. rewrite Hk. reflexivity.
  - cbn [star_loop append]. rewrite (Hf "" (String a w)) by (discriminate || reflexivity).
    cbn [mt anychar].
    assert (Hlt : (String.length (w ++ r) <? String.length (String a (w ++ r)))%nat = true)
      by (apply Nat.ltb_lt; simpl; lia).
    rewrite Hlt. apply IH; [| simpl in Hn; lia | exact Hk].
    intros u v p' c' Hv E. apply (Hf (String a u) v); [exact Hv | rewrite E; reflexivity].
Qed.

Lemma lazy_plus_group (n : nat) (w r : string) p c k x :
  w <> "" ->
  (forall u v p' c', u <> "" -> v <> "" -> w = u ++ v -> k p' (v ++ r) c' = None) ->
  k (last_or p w) r ((n, w) :: c) = Some x ->
  mt (RGroup n (plus false anychar)) p (w ++ r) c k = Some x.
Proof.
  intros Hne Hf Hk. destruct w as [|a w]; [congruence|].
  cbn [mt plus append anychar].
  change (star_loop (mt anychar) false
    (fun p' s' c' => k p' s' ((n, take (String.length (String a (w ++ r)) - String.length s')
                                       (String a (w ++ r))) :: c'))
    (S (String.length (w ++ r))) (Some a) (w ++ r) c = Some x).
  apply lazy_first; [| rewrite length_sapp; lia |].
  - intros u v p' c' Hv E. apply (Hf (String a u) v); [discriminate | exact Hv | rewrite E; reflexivity].
  - change (String a (w ++ r)) with (String a w ++ r). rewrite take_app_len. exact Hk.
Qed.

Lemma star_space_semi (s : string) : forall n p c k,
  all_chars (fun b => negb (Ascii.eqb b ";")) s = true ->
  star_loop (mt space) true (fun p' s' c' => mt (lit ";") p' s' c' k) n p s c = None.
Proof.
  induction s as [|a s IH]; intros n p c k Hs.
  - destruct n; reflexivity.
  - cbn [all_chars] in Hs. apply andb_prop in Hs as [Ha Hs].
    assert (Hsemi : Ascii.eqb ";" a = false)
      by (destruct (Ascii.eqb_spec ";" a); [subst; discriminate Ha | reflexivity]).
    assert (Hk0 : mt (lit ";") p (String a s) c k = None)
      by (cbn [lit mt]; rewrite Hsemi; reflexivity).
    destruct n as [|n]; cbn [star_loop]; [exact Hk0|]. rewrite Hk0.
    cbn [space mt]. destruct (is_space a); [|reflexivity].
    destruct (String.length s <? String.length (String a s))%nat; [|reflexivity].
    rewrite IH by exact Hs. reflexivity.
Qed.

Lemma semi_tail_fails (s : string) p c :
  s <> "" ->
  all_chars (fun b => negb (Ascii.eqb b ";") && negb (Ascii.eqb b (ascii_of_nat 10))) s = true ->
  mt semi_tail p s c dollar = None.
Proof.
  intros Hne Hs. unfold semi_tail, opt. cbn [seq mt].
  rewrite star_space_semi.
  - destruct s as [|a s]; [congruence|]. cbn [all_chars] in Hs.
    apply andb_prop in Hs as [Ha _]. apply andb_prop in Ha as [_ Hn].
    destruct s; [|reflexivity]. cbn [dollar]. destruct (Ascii.eqb a (ascii_of_nat 10)); [discriminate Hn|reflexivity].
  - clear Hne. induction s as [|a s IH]; [reflexivity|].
    cbn [all_chars] in *. apply andb_prop in Hs as [Ha Hs]. apply andb_prop in Ha as [Ha _].
    rewrite Ha, IH by exact Hs. reflexivity.
Qed.

Lemma semi_tail_empty p c : mt semi_tail p "" c dollar = Some (p, "", c).
Proof. reflexivity. Qed.

Lemma search_end_hit (r : rx) (s : string) p' s' m :
  mt r None s [] dollar = Some (p', s', m) -> search_end r s = Some m.
Proof. intro H. unfold search_end. destruct s; cbn [search_end_from]; rewrite H; reflexivity. Qed.

Lemma word_not_space (c : ascii) : is_word c = true -> is_space c = false.
Proof. destruct c as [[] [] [] [] [] [] [] []]; reflexivity || discriminate. Qed.

Lemma semi_tail_head_fails (b : ascii) (s : string) p c :
  is_space b = false -> Ascii.eqb ";" b = false -> mt semi_tail p (String b s) c dollar = None.
Proof.
  intros Hb Hs. unfold semi_tail, opt. cbn [seq mt star_loop space lit]. rewrite Hb, Hs.
  destruct s; [|reflexivity]. cbn [dollar].
  destruct (Ascii.eqb_spec b (ascii_of_nat 10)) as [->|_]; [discriminate Hb | reflexivity].
Qed.

Lemma where_part_skip (n : nat) (b : ascii) (s : string) p c :
  is_space b = false ->
  mt (RSeq (where_part n) semi_tail) p (String b s) c dollar = mt semi_tail p (String b s) c dollar.
Proof.
  intro Hb. unfold where_part, opt. rewrite seq_alt_none; [reflexivity|].
  cbn [seq plus space mt]. rewrite Hb. reflexivity.
Qed.

(** the optional WHERE part, followed by the optional [;] and [$] *)
Lemma where_part_match (n : nat) (a : ascii) (W' : string) p c :
  is_space a = false -> all_chars no_semi_nl (String a W') = true ->
  exists p', mt (RSeq (where_part n) semi_tail) p (" WHERE " ++ String a W') c dollar
  = Some (p', "", (n, String a W') :: c).
Proof.
  intros Ha Hw. eexists. unfold where_part, opt. apply seq_alt_some. cbn [seq].
  change (" WHERE " ++ String a W') with (" " ++ ("WHERE" ++ (" " ++ String a W'))).
  apply seq_greedy_cls; [discriminate | reflexivity | reflexivity |].
  rewrite mt_seq_litI.
  apply seq_greedy_cls; [discriminate | reflexivity | exact Ha |].
  pose proof (lazy_plus_group n (String a W') "") as L.
  rewrite (sapp_nil_r (String a W')) in L.
  apply L; [discriminate | | apply semi_tail_empty].
  intros u v p' c' _ Hv E. rewrite sapp_nil_r. apply semi_tail_fails; [exact Hv|].
  rewrite E, all_chars_app in Hw. apply andb_prop in Hw as [_ Hw]. exact Hw.
Qed.

(** [DELETE FROM t] and [DELETE FROM t;] with a word table name become
    [db.t.deleteMany({  })]. *)
Lemma handle_delete_all (st : statement) (t tail : string) :
  t <> "" -> all_chars is_word t = true -> tail = "" \/ tail = ";" ->
  sql_handle_delete st ("DELETE FROM " ++ t ++ tail) = Ok ("db." ++ t ++ ".deleteMany({  })").
Proof.
  intros Ht Hw Htail.
  assert (H : exists p', mt sql_delete_pattern None ("DELETE FROM " ++ t ++ tail) [] dollar
                         = Some (p', "", [(1, t)])).
  { assert (Hr : match t ++ tail with String b _ => is_space b = false | EmptyString => True end).
    { destruct t as [|b t]; [congruence|]. cbn [all_chars] in Hw. apply andb_prop in Hw as [Hb _].
      apply word_not_space, Hb. }
    unfold sql_delete_pattern. cbn [seq].
    change ("DELETE FROM " ++ t ++ tail) with ("DELETE" ++ (" " ++ ("FROM" ++ (" " ++ (t ++ tail))))).
    destruct Htail as [-> | ->]; eexists;
    (rewrite mt_seq_litI; apply seq_greedy_cls; [discriminate | reflexivity | reflexivity |];
     rewrite mt_seq_litI; apply seq_greedy_cls; [discriminate | reflexivity | exact Hr |];
     apply seq_greedy_group; [exact Ht | exact Hw | reflexivity | reflexivity]). }
  destruct H as [p' H]. unfold sql_handle_delete. rewrite (search_end_hit _ _ _ _ _ H).
  reflexivity.
Qed.

(** [DELETE FROM t WHERE W] (W without [;] or newline, not starting with
    whitespace) becomes [deleteOne] with the filter read from W when the filter
    has an [_id] key, and [deleteMany] with that filter otherwise. *)
Lemma handle_delete_where (st : statement) (t : string) (a : ascii) (W' : string) :
  t <> "" -> all_chars is_word t = true ->
  is_space a = false -> all_chars no_semi_nl (String a W') = true ->
  sql_handle_delete st ("DELETE FROM " ++ t ++ " WHERE " ++ String a W') =
  let filter := parse_where_conditions (String a W') in
  Ok ("db." ++ t ++ "." ++
      match lookup "_id" filter with Some _ => "deleteOne" | None => "deleteMany" end ++
      "(" ++ format_json (PDict filter) ++ ")").
Proof.
  intros Ht Hw Ha HW.
  assert (H : exists p', mt sql_delete_pattern None ("DELETE FROM " ++ t ++ " WHERE " ++ String a W') [] dollar
                         = Some (p', "", [(2, String a W'); (1, t)])).
  { unfold sql_delete_pattern. cbn [seq].
    change ("DELETE FROM " ++ t ++ " WHERE " ++ String a W')
      with ("DELETE" ++ (" " ++ ("FROM" ++ (" " ++ (t ++ (" WHERE " ++ String a W')))))).
    destruct (where_part_match 2 a W' (last_or (last_or (last_or (last_or (last_or None "DELETE") " ") "FROM") " ") t) [(1, t)] Ha HW) as [p' Hp].
    exists p'.
    rewrite mt_seq_litI. apply seq_greedy_cls; [discriminate | reflexivity | reflexivity |].
    rewrite mt_seq_litI. apply seq_greedy_cls; [discriminate | reflexivity | |].
    - destruct t as [|b t]; [congruence|]. cbn [all_chars] in Hw. apply andb_prop in Hw as [Hb _].
      apply word_not_space, Hb.
    - apply seq_greedy_group; [exact Ht | exact Hw | reflexivity |].
      exact Hp. }
  destruct H as [p' H]. unfold sql_handle_delete. rewrite (search_end_hit _ _ _ _ _ H).
  cbn [group MongoToSql.gr Nat.eqb]. unfold where_filter. cbn [String.eqb].
  destruct (parse_where_conditions (String a W')) as [|kv0 F] eqn:E; reflexivity.
Qed.

Lemma strip_no_space (s : string) : s <> "" -> no_space s = true -> strip s = s.
Proof.
  intros Hne Hs. unfold strip.
  pose proof (lstrip_keep s "" Hne Hs) as L. rewrite sapp_nil_r in L. rewrite L.
  apply rstrip_all_keep, Hs.
Qed.

Lemma no_space_semi_head (b : ascii) (s : string) :
  all_chars no_space_semi (String b s) = true -> is_space b = false /\ Ascii.eqb ";" b = false.
Proof.
  cbn [all_chars]. unfold no_space_semi. intro H.
  apply andb_prop in H as [H _]. apply andb_prop in H as [H1 H2].
  split; [now destruct (is_space b)|].
  destruct (Ascii.eqb_spec ";" b) as [<-|_]; [discriminate H2 | reflexivity].
Qed.

(** the lazy SET group stops where the WHERE part or the end begins *)
Lemma set_group_match (S r : string) p c x :
  S <> "" -> all_chars no_space_semi S = true ->
  mt (RSeq (where_part 3) semi_tail) (last_or p S) r ((2, S) :: c) dollar = Some x ->
  mt (RSeq (RGroup 2 (plus false anychar)) (RSeq (where_part 3) semi_tail)) p (S ++ r) c dollar = Some x.
Proof.
  intros Hne Hs Hk.
  change (mt (RGroup 2 (plus false anychar)) p (S ++ r) c
            (fun p' s' c' => mt (RSeq (where_part 3) semi_tail) p' s' c' dollar) = Some x).
  apply lazy_plus_group; [exact Hne | | exact Hk].
  intros u v p' c' _ Hv E. destruct v as [|b v]; [congruence|].
  rewrite E, all_chars_app in Hs. apply andb_prop in Hs as [_ Hs].
  apply no_space_semi_head in Hs as [Hb Hsemi].
  cbn [append]. rewrite where_part_skip by exact Hb. apply semi_tail_head_fails; assumption.
Qed.

Lemma update_match (t S rest : string) x :
  t <> "" -> all_chars is_word t = true ->
  S <> "" -> all_chars no_space_semi S = true ->
  mt (RSeq (where_part 3) semi_tail)
     (last_or (last_or (last_or (last_or (last_or (last_or (last_or None "UPDATE") " ") t) " ") "SET") " ") S)
     rest [(2, S); (1, t)] dollar = Some x ->
  mt SqlDml.update_pattern None ("UPDATE " ++ t ++ " SET " ++ S ++ rest) [] dollar = Some x.
Proof.
  intros Ht Hw HS HSs Hk.
  unfold SqlDml.update_pattern. cbn [seq].
  change ("UPDATE " ++ t ++ " SET " ++ S ++ rest)
    with ("UPDATE" ++ (" " ++ (t ++ (" " ++ ("SET" ++ (" " ++ (S ++ rest))))))).
  rewrite mt_seq_litI. apply seq_greedy_cls; [discriminate | reflexivity | |].
  { destruct t as [|b t]; [congruence|]. cbn [all_chars] in Hw. apply andb_prop in Hw as [Hb _].
    apply word_not_space, Hb. }
  apply seq_greedy_group; [exact Ht | exact Hw | reflexivity |].
  apply seq_greedy_cls; [discriminate | reflexivity | reflexivity |].
  rewrite mt_seq_litI. apply seq_greedy_cls; [discriminate | reflexivity | |].
  { destruct S as [|b S']; [congruence|]. apply no_space_semi_head in HSs as [Hb _]. exact Hb. }
  apply set_group_match; [exact HS | exact HSs | exact Hk].
Qed.

(** [UPDATE t SET S WHERE W], with S free of whitespace and [;], reads S as
    the SET clause and W as the WHERE clause and becomes [updateMany] with the
    filter read from W and the [$set] items read from S, unless the SET
    clause fails. *)
Lemma handle_update_where (st : statement) (t S : string) (a : ascii) (W' : string) :
  t <> "" -> all_chars is_word t = true ->
  S <> "" -> all_chars no_space_semi S = true ->
  is_space a = false -> all_chars no_semi_nl (String a W') = true ->
  handle_update st ("UPDATE " ++ t ++ " SET " ++ S ++ " WHERE " ++ String a W') =
  (let* set_items := set_items_loop (split "," S) [] in
   Ok ("db." ++ t ++ ".updateMany(" ++ format_json (PDict (parse_where_conditions (String a W')))
       ++ ", {'$set': " ++ format_json (PDict set_items) ++ "})")).
Proof.
  intros Ht Hw HS HSs Ha HW.
  destruct (where_part_match 3 a W'
    (last_or (last_or (last_or (last_or (last_or (last_or (last_or None "UPDATE") " ") t) " ") "SET") " ") S)
    [(2, S); (1, t)] Ha HW) as [p' Hp].
  pose proof (update_match t S (" WHERE " ++ String a W') _ Ht Hw HS HSs Hp) as H.
  unfold handle_update. rewrite (search_end_hit _ _ _ _ _ H).
  cbn [group MongoToSql.gr Nat.eqb]. rewrite strip_no_space.
  - destruct (set_items_loop (split "," S) []); reflexivity.
  - exact HS.
  - apply (all_chars_impl no_space_semi); [|exact HSs].
    unfold no_space_semi. intros b Hb. apply andb_prop in Hb as [Hb _]. exact Hb.
Qed.

(** [UPDATE t SET S] and [UPDATE t SET S;], with S free of whitespace and
    [;], become [updateMany] with the empty filter and the [$set] items read
    from S, unless the SET clause fails. *)
Lemma handle_update_all (st : statement) (t S tail : string) :
  t <> "" -> all_chars is_word t = true ->
  S <> "" -> all_chars no_space_semi S = true -> tail = "" \/ tail = ";" ->
  handle_update st ("UPDATE " ++ t ++ " SET " ++ S ++ tail) =
  (let* set_items := set_items_loop (split "," S) [] in
   Ok ("db." ++ t ++ ".updateMany({  }, {'$set': " ++ format_json (PDict set_items) ++ "})")).
Proof.
  intros Ht Hw HS HSs Htail.
  assert (Hp : exists p', mt (RSeq (where_part 3) semi_tail)
    (last_or (last_or (last_or (last_or (last_or (last_or (last_or None "UPDATE") " ") t) " ") "SET") " ") S)
    tail [(2, S); (1, t)] dollar = Some (p', "", [(2, S); (1, t)]))
    by (destruct Htail as [-> | ->]; eexists; reflexivity).
  destruct Hp as [p' Hp].
  pose proof (update_match t S tail _ Ht Hw HS HSs Hp) as H.
  unfold handle_update. rewrite (search_end_hit _ _ _ _ _ H).
  cbn [group MongoToSql.gr Nat.eqb]. rewrite strip_no_space.
  - destruct (set_items_loop (split "," S) []); reflexivity.
  - exact HS.
  - apply (all_chars_impl no_space_semi); [|exact HSs].
    unfold no_space_semi. intros b Hb. apply andb_prop in Hb as [Hb _]. exact Hb.
Qed.

(** The SET clause fails only with [SyntaxError], and it fails exactly when
    one of its comma-separated items has no [=]. *)
Lemma set_items_loop_errors (items : list string) : forall acc,
  (forall e, set_items_loop items acc = Err e -> e = SyntaxError) /\
  ((exists e, set_items_loop items acc = Err e) <-> existsb (fun i => negb (contains "=" i)) items = true).
Proof.
  induction items as [|item rest IH]; intro acc.
  - split; [intros e H; discriminate H|]. split; [intros [e H]; discriminate H | intro H; discriminate H].
  - cbn [set_items_loop existsb].
    destruct (contains "=" item); cbn [negb orb].
    + destruct (split_once "=" item) as [field value]. apply IH.
    + split; [intros e H; injection H; auto|]. split; [reflexivity | intros _; eauto].
Qed.

(** [DELETE FROM users;] *)
Lemma handle_delete_all_witness :
  sql_handle_delete [] "DELETE FROM users;" = Ok "db.users.deleteMany({  })".
Proof. exact (handle_delete_all [] "users" ";" ltac:(discriminate) eq_refl (or_intror eq_refl)). Defined.

(** [DELETE FROM users WHERE _id = 5] *)
Lemma handle_delete_where_witness :
  sql_handle_delete [] "DELETE FROM users WHERE _id = 5" = Ok ("db.users.deleteOne({ _id: " ++ dq ++ "5" ++ dq ++ " })").
Proof. exact (handle_delete_where [] "users" "_" "id = 5" ltac:(discriminate) eq_refl eq_refl eq_refl). Defined.

(** [UPDATE users SET a=1,b='x' WHERE c = 2] *)
Lemma handle_update_where_witness :
  handle_update [] "UPDATE users SET a=1,b='x' WHERE c = 2" =
  Ok ("db.users.updateMany({ c: " ++ dq ++ "2" ++ dq ++ " }, {'$set': { a: 1, b: "
      ++ dq ++ "x" ++ dq ++ " }})").
Proof.
  exact (handle_update_where [] "users" "a=1,b='x'" "c" " = 2"
           ltac:(discriminate) eq_refl ltac:(discriminate) eq_refl eq_refl eq_refl).
Defined.

(** [UPDATE users SET a=1,b;] fails: the item [b] has no [=] *)
Lemma handle_update_all_witness :
  handle_update [] "UPDATE users SET a=1,b;" = Err SyntaxError.
Proof.
  exact (handle_update_all [] "users" "a=1,b" ";"
           ltac:(discriminate) eq_refl ltac:(discriminate) eq_refl (or_intror eq_refl)).
Defined.

(** the items [a=1] and [b] *)
Lemma set_items_loop_errors_witness :
  exists e, set_items_loop ["a=1"; "b"] [] = Err e /\ e = SyntaxError.
Proof.
  destruct (set_items_loop_errors ["a=1"; "b"] []) as [Herr Hiff].
  destruct (proj2 Hiff eq_refl) as [e He]. exists e. split; [exact He | exact (Herr e He)].
Defined.

End SqlDmlProps.
